(** * MP3 frame counting: the header decoder and the two frame scanners

    A shallow embedding of [src/core/streaming-mp3-parser.ts]
    ([StreamingMp3Parser]), of the in-memory [Mp3Parser] and of
    [src/config/constants.ts], with the properties the specification states
    about them.

    Conventions.
    - A Node [Buffer] is a [list byte]; [buffer[i]] is [byte_at], which is
      [None] where JavaScript gives [undefined].
    - Cursors, lengths and counters are JavaScript numbers holding integers far
      below 2^53; they are modelled in [Z], so that [buffer.length - 4] may be
      negative exactly as in the source.
    - [>>] and [&] act on the 32-bit two's complement reading of their operands
      ([ToInt32]); the one division is an IEEE-754 binary64 division followed by
      [Math.floor], modelled on Rocq's primitive floats.
    - A [while] loop is a fuelled [Fixpoint] that returns [None] only when the
      fuel runs out; the fuel the drivers pass is shown to be enough, and the
      loop is given a second time by well-founded recursion on the bytes ahead
      of the cursor. *)

From Stdlib Require Import ZArith Lia Floats Uint63.
From Stdlib Require Import Strings.Byte.
From stdpp Require Import base option list strings gmap.
From Equations Require Import Equations.

Local Open Scope Z_scope.

(** ** [src/config/constants.ts] *)

Module MP3_CONSTANTS.
Definition FRAME_SYNC_BYTE1 : Z := 0xff.
Definition FRAME_SYNC_BYTE2_MASK : Z := 0xe0.
Definition FRAME_SIZE_COEFFICIENT : Z := 144.
Definition BITRATE_MULTIPLIER : Z := 1000.
Definition MIN_HEADER_SIZE : Z := 4.
End MP3_CONSTANTS.

(** ** JavaScript numbers and Node buffers *)

Module JS.

(** The 32-bit signed reading the bitwise operators take of an operand. *)
Definition ToInt32 (x : Z) : Z := (x + 2 ^ 31) mod 2 ^ 32 - 2 ^ 31.

(** [x >> n], the sign-propagating right shift. *)
Definition sar (x n : Z) : Z := Z.shiftr (ToInt32 x) n.

(** [x & y]. *)
Definition and (x y : Z) : Z := Z.land (ToInt32 x) (ToInt32 y).

(** An integer below 2^53 as the binary64 number that holds it. *)
Definition number (z : Z) : float := PrimFloat.of_uint63 (Uint63.of_Z z).

(** [Math.floor] of a finite binary64 number; the scanners never reach it
    with an infinity or a NaN, for which this model answers 0. *)
Definition Math_floor (f : float) : Z :=
  match Prim2SF f with
  | S754_finite false m e => Z.shiftl (Z.pos m) e
  | S754_finite true m e => Z.shiftl (Z.neg m) e
  | _ => 0
  end.

(** [Math.floor(a / b)] for integers [a] and [b]. *)
Definition floor_div (a b : Z) : Z :=
  Math_floor (PrimFloat.div (number a) (number b)).

(** [x | y]. *)
Definition or (x y : Z) : Z := Z.lor (ToInt32 x) (ToInt32 y).

(** [x << n]: the shift count is taken modulo 32 and the result is read
    back as a signed 32-bit value. *)
Definition shl (x n : Z) : Z := ToInt32 (Z.shiftl (ToInt32 x) (Z.land n 0x1f)).

(** [array.indexOf(x)] on an array of integers: the first index that holds
    [x], or -1. *)
Fixpoint indexOf_from (array : list Z) (x : Z) (i : Z) : Z :=
  match array with
  | [] => -1
  | y :: array => if y =? x then i else indexOf_from array x (i + 1)
  end.

Definition indexOf (array : list Z) (x : Z) : Z := indexOf_from array x 0.

End JS.

Module Buffer.

Definition value (b : byte) : Z := Z.of_N (Byte.to_N b).

Definition length (buffer : list byte) : Z := Z.of_nat (List.length buffer).

(** [buffer[i]]: [None] stands for [undefined]. *)
Definition byte_at (buffer : list byte) (i : Z) : option Z :=
  if i <? 0 then None else value <$> buffer !! Z.to_nat i.

(** [buffer.readUInt32BE(offset)]: [None] stands for the [RangeError] Node
    raises when the four bytes are not all inside the buffer. *)
Definition readUInt32BE (buffer : list byte) (offset : Z) : option Z :=
  b0 ← byte_at buffer offset;
  b1 ← byte_at buffer (offset + 1);
  b2 ← byte_at buffer (offset + 2);
  b3 ← byte_at buffer (offset + 3);
  Some (b0 * 2 ^ 24 + b1 * 2 ^ 16 + b2 * 2 ^ 8 + b3).

(** [Buffer.concat([a, b])]. *)
Definition concat2 (a b : list byte) : list byte := a ++ b.

(** [buffer.subarray(start)]; a start past the end gives the empty buffer. *)
Definition subarray (buffer : list byte) (start : Z) : list byte :=
  drop (Z.to_nat start) buffer.

(** The byte an element of a buffer holds after [v] is stored in it: [v]
    modulo 256. *)
Definition of_number (v : Z) : byte :=
  match Byte.of_N (Z.to_N (v mod 256)) with
  | Some b => b
  | None => x00
  end.

(** [Buffer.alloc(size)]: [size] zero bytes. *)
Definition alloc (size : Z) : list byte := replicate (Z.to_nat size) x00.

(** [buffer[i] = v]; a store outside the buffer is ignored. *)
Definition set (buffer : list byte) (i v : Z) : list byte :=
  if (0 <=? i) && (i <? length buffer)
  then <[Z.to_nat i := of_number v]> buffer
  else buffer.

(** [buffer[i] |= v]. *)
Definition or_assign (buffer : list byte) (i v : Z) : list byte :=
  match byte_at buffer i with
  | Some old => set buffer i (JS.or old v)
  | None => buffer
  end.

(** [source.copy(target, targetStart)] for a start inside the target: the
    target afterwards, with as many bytes of the source as fit. *)
Definition copy (source target : list byte) (targetStart : nat) : list byte :=
  take targetStart target
  ++ take (List.length target - targetStart) source
  ++ drop (targetStart + List.length source) target.

End Buffer.

(** ** Outcomes *)

(** [InvalidMp3Error] carries its message; a constructor or [getFrameCount]
    either returns or throws one, and the streaming promise resolves with a
    count or rejects with one. *)
Inductive InvalidMp3Error : Type :=
  | InvalidMp3 (message : string).

Inductive outcome (A : Type) : Type :=
  | Returned (a : A)
  | Thrown (e : InvalidMp3Error).
Arguments Returned {A} a.
Arguments Thrown {A} e.

(** One pass of a loop body: the next cursor and counter, or [break]. *)
Inductive iteration : Type :=
  | Next (offset frameCount : Z)
  | Break.

(** The test guarding both scan loops: bytes [offset] and [offset + 1] are
    defined, the first is 0xFF and the second has its three high bits set. *)
Definition frame_sync (buffer : list byte) (offset : Z) : bool :=
  match Buffer.byte_at buffer offset, Buffer.byte_at buffer (offset + 1) with
  | Some byte1, Some byte2 =>
      (byte1 =? MP3_CONSTANTS.FRAME_SYNC_BYTE1)
      && (JS.and byte2 MP3_CONSTANTS.FRAME_SYNC_BYTE2_MASK
          =? MP3_CONSTANTS.FRAME_SYNC_BYTE2_MASK)
  | _, _ => false
  end.

(** The header both scan loops share,
    [while (offset < buffer.length - MP3_CONSTANTS.MIN_HEADER_SIZE)], around a
    loop body.  [None] is the fuel running out and nothing else. *)
Fixpoint scan_while (body : list byte -> Z -> Z -> iteration) (fuel : nat)
    (buffer : list byte) (offset frameCount : Z) : option (Z * Z) :=
  if offset <? Buffer.length buffer - MP3_CONSTANTS.MIN_HEADER_SIZE then
    match fuel with
    | O => None
    | S fuel =>
        match body buffer offset frameCount with
        | Next offset' frameCount' =>
            scan_while body fuel buffer offset' frameCount'
        | Break => Some (offset, frameCount)
        end
    end
  else Some (offset, frameCount).

(** The loop as a relation, free of fuel: from cursor [offset] and counter
    [frameCount] the loop exits in the given state. *)
Inductive exits (body : list byte -> Z -> Z -> iteration) (buffer : list byte)
  : Z -> Z -> Z * Z -> Prop :=
  | exits_guard offset frameCount :
      ~ offset < Buffer.length buffer - MP3_CONSTANTS.MIN_HEADER_SIZE ->
      exits body buffer offset frameCount (offset, frameCount)
  | exits_break offset frameCount :
      offset < Buffer.length buffer - MP3_CONSTANTS.MIN_HEADER_SIZE ->
      body buffer offset frameCount = Break ->
      exits body buffer offset frameCount (offset, frameCount)
  | exits_next offset frameCount offset' frameCount' final :
      offset < Buffer.length buffer - MP3_CONSTANTS.MIN_HEADER_SIZE ->
      body buffer offset frameCount = Next offset' frameCount' ->
      exits body buffer offset' frameCount' final ->
      exits body buffer offset frameCount final.

(** One pass of the loop leads from the second state to the first. *)
Definition pass (body : list byte -> Z -> Z -> iteration) (buffer : list byte)
    (s' s : Z * Z) : Prop :=
  s.1 < Buffer.length buffer - MP3_CONSTANTS.MIN_HEADER_SIZE
  /\ body buffer s.1 s.2 = Next s'.1 s'.2.

(** A value together with the proof that it is the value of the term. *)
Definition inspect {A : Type} (a : A) : {b : A | a = b} := exist _ a eq_refl.

(** The same loop by well-founded recursion on the bytes ahead of the cursor,
    [buffer.length - offset], for a body that moves the cursor forward. *)
Equations? scan_wf (body : list byte -> Z -> Z -> iteration)
    (advances : forall buffer o c o' c', body buffer o c = Next o' c' -> o < o')
    (buffer : list byte) (offset frameCount : Z) : Z * Z
    by wf (Z.to_nat (Buffer.length buffer - offset)) lt :=
  scan_wf body advances buffer offset frameCount
    with Z_lt_dec offset (Buffer.length buffer - MP3_CONSTANTS.MIN_HEADER_SIZE) => {
    | right _ := (offset, frameCount);
    | left _ with inspect (body buffer offset frameCount) := {
      | exist _ Break _ := (offset, frameCount);
      | exist _ (Next offset' frameCount') Hbody :=
          scan_wf body advances buffer offset' frameCount' } }.
Proof.
  apply advances in Hbody. unfold MP3_CONSTANTS.MIN_HEADER_SIZE in *. lia.
Qed.

(** Events of a Node read stream, and a promise as the caller observes it. *)
Inductive event : Type :=
  | Data (chunk : list byte)
  | End
  | Error (message : string).

Inductive promise (A : Type) : Type :=
  | Pending
  | Settled (o : outcome A).
Arguments Pending {A}.
Arguments Settled {A} o.

(** ** [StreamingMp3Parser] *)

Module StreamingMp3Parser.

Definition CHUNK_SIZE : Z := 64 * 1024.

Definition BITRATE_TABLE : list Z :=
  [0; 32; 40; 48; 56; 64; 80; 96; 112; 128; 160; 192; 224; 256; 320; 0].

Definition SAMPLE_RATE_TABLE : list Z := [44100; 48000; 32000; 0].

(** The part of [getFrameSize] after the header has been read. *)
Definition frameSizeOfHeader (header : Z) : Z :=
  let bitrateIndex := JS.and (JS.sar header 12) 0x0f in
  let bitrate := BITRATE_TABLE !! Z.to_nat bitrateIndex in
  let sampleRateIndex := JS.and (JS.sar header 10) 0x03 in
  let sampleRate := SAMPLE_RATE_TABLE !! Z.to_nat sampleRateIndex in
  let padding := JS.and (JS.sar header 9) 0x01 in
  match bitrate, sampleRate with
  | Some bitrate, Some sampleRate =>
      if (bitrate =? 0) || (sampleRate =? 0) then 0
      else
        JS.floor_div
          (MP3_CONSTANTS.FRAME_SIZE_COEFFICIENT * bitrate
           * MP3_CONSTANTS.BITRATE_MULTIPLIER)
          sampleRate
        + padding
  | _, _ => 0
  end.

(** [getFrameSize(buffer, offset)].  The guard makes the read succeed for
    every cursor the scan loop passes (a cursor at which [buffer[offset]] is
    defined); the [None] branch is the [RangeError] of a negative offset,
    which no caller supplies. *)
Definition getFrameSize (buffer : list byte) (offset : Z) : Z :=
  if offset + MP3_CONSTANTS.MIN_HEADER_SIZE >? Buffer.length buffer then 0
  else
    match Buffer.readUInt32BE buffer offset with
    | Some header => frameSizeOfHeader header
    | None => 0
    end.

(** The constructor, over a file system that maps a path to the content of
    the file stored there. *)
Definition constructor (fs : gmap string (list byte)) (filePath : string)
  : outcome string :=
  if String.eqb filePath EmptyString
  then Thrown (InvalidMp3 "File path is required")
  else
    match fs !! filePath with
    | None => Thrown (InvalidMp3 "File does not exist")
    | Some content =>
        if Buffer.length content =? 0 then Thrown (InvalidMp3 "File is empty")
        else Returned filePath
    end.

(** The variables the three handlers of [getFrameCount] close over. *)
Record state : Type := State {
  frameCount : Z;
  buffer : list byte;
  offset : Z;
}.

Definition initial : state :=
  {| frameCount := 0; buffer := []; offset := 0 |}.

(** One pass of the body of the [while] loop of the data handler. *)
Definition loopBody (buffer : list byte) (offset frameCount : Z) : iteration :=
  if frame_sync buffer offset then
    let frameSize := getFrameSize buffer offset in
    if frameSize >? 0 then
      if offset + frameSize <=? Buffer.length buffer then
        Next (offset + frameSize) (frameCount + 1)
      else Break
    else Next (offset + 1) frameCount
  else Next (offset + 1) frameCount.

(** The [while] loop of the data handler; the result is the cursor and the
    counter on exit. *)
Definition scanLoop : nat -> list byte -> Z -> Z -> option (Z * Z) :=
  scan_while loopBody.

(** [stream.on('data', ...)]. *)
Definition onData (st : state) (chunk : list byte) : option state :=
  let buffer := Buffer.concat2 (buffer st) chunk in
  '(offset, frameCount) ←
    scanLoop (List.length buffer) buffer (offset st) (frameCount st);
  Some (if offset >? 0 then
          {| frameCount := frameCount;
             buffer := Buffer.subarray buffer offset;
             offset := 0 |}
        else
          {| frameCount := frameCount; buffer := buffer; offset := offset |}).

(** [stream.on('end', ...)]. *)
Definition onEnd (st : state) : outcome Z :=
  if frameCount st =? 0 then Thrown (InvalidMp3 "No valid MP3 frames found")
  else Returned (frameCount st).

(** [stream.on('error', ...)]. *)
Definition onError (message : string) : outcome Z :=
  Thrown (InvalidMp3 (String.append "Error reading file: " message)).

(** The promise of [getFrameCount] after the stream has emitted [events]:
    it settles at the first [End] or [Error] and stays pending while only
    data has arrived. *)
Fixpoint handle (st : state) (events : list event) : option (promise Z) :=
  match events with
  | [] => Some Pending
  | Data chunk :: events => st' ← onData st chunk; handle st' events
  | End :: _ => Some (Settled (onEnd st))
  | Error message :: _ => Some (Settled (onError message))
  end.

Definition getFrameCount (events : list event) : option (promise Z) :=
  handle initial events.

(** The state after the data handler has run on each of [chunks]. *)
Fixpoint feed (st : state) (chunks : list (list byte)) : option state :=
  match chunks with
  | [] => Some st
  | chunk :: chunks => st' ← onData st chunk; feed st' chunks
  end.

(** A stream that reads without failure: the chunks, then the end. *)
Definition delivery (chunks : list (list byte)) : list event :=
  (Data <$> chunks) ++ [End].

(** The two statements by which the upload route uses the class,
    [new StreamingMp3Parser(filePath)] and [await parser.getFrameCount()]:
    an error the constructor throws is the outcome, and the stream is not
    opened. *)
Definition construct_and_count (fs : gmap string (list byte))
    (filePath : string) (events : list event) : option (promise Z) :=
  match constructor fs filePath with
  | Thrown e => Some (Settled (Thrown e))
  | Returned _ => getFrameCount events
  end.

End StreamingMp3Parser.

(** ** [Mp3Parser] *)

Module Mp3Parser.

Definition BITRATE_TABLE : list Z :=
  [0; 32; 40; 48; 56; 64; 80; 96; 112; 128; 160; 192; 224; 256; 320; 0].

Definition SAMPLE_RATE_TABLE : list Z := [44100; 48000; 32000; 0].

(** The constructor; [None] is a file object without a [buffer]. *)
Definition constructor (file_buffer : option (list byte))
  : outcome (list byte) :=
  match file_buffer with
  | None => Thrown (InvalidMp3 "File buffer is missing")
  | Some buffer =>
      if Buffer.length buffer =? 0 then Thrown (InvalidMp3 "File is empty")
      else Returned buffer
  end.

Definition frameSizeOfHeader (header : Z) : Z :=
  let bitrateIndex := JS.and (JS.sar header 12) 0x0f in
  let bitrate := BITRATE_TABLE !! Z.to_nat bitrateIndex in
  let sampleRateIndex := JS.and (JS.sar header 10) 0x03 in
  let sampleRate := SAMPLE_RATE_TABLE !! Z.to_nat sampleRateIndex in
  let padding := JS.and (JS.sar header 9) 0x01 in
  match bitrate, sampleRate with
  | Some bitrate, Some sampleRate =>
      if (bitrate =? 0) || (sampleRate =? 0) then 0
      else
        JS.floor_div
          (MP3_CONSTANTS.FRAME_SIZE_COEFFICIENT * bitrate
           * MP3_CONSTANTS.BITRATE_MULTIPLIER)
          sampleRate
        + padding
  | _, _ => 0
  end.

(** [getFrameSize(offset)] on [this.buffer]. *)
Definition getFrameSize (buffer : list byte) (offset : Z) : Z :=
  if offset + MP3_CONSTANTS.MIN_HEADER_SIZE >? Buffer.length buffer then 0
  else
    match Buffer.readUInt32BE buffer offset with
    | Some header => frameSizeOfHeader header
    | None => 0
    end.

(** One pass of the body of the [while] loop of [getFrameCount]; this loop
    has no [break]. *)
Definition loopBody (buffer : list byte) (offset frameCount : Z) : iteration :=
  if frame_sync buffer offset then
    let frameSize := getFrameSize buffer offset in
    if frameSize >? 0 then Next (offset + frameSize) (frameCount + 1)
    else Next (offset + 1) frameCount
  else Next (offset + 1) frameCount.

(** The [while] loop of [getFrameCount]. *)
Definition scanLoop : nat -> list byte -> Z -> Z -> option (Z * Z) :=
  scan_while loopBody.

Definition getFrameCount (buffer : list byte) : option (outcome Z) :=
  '(_, frameCount) ← scanLoop (List.length buffer) buffer 0 0;
  Some (if frameCount =? 0
        then Thrown (InvalidMp3 "No valid MP3 frames found")
        else Returned frameCount).

(** [new Mp3Parser(file).getFrameCount()], as the tests call it. *)
Definition construct_and_count (file_buffer : option (list byte))
  : option (outcome Z) :=
  match constructor file_buffer with
  | Thrown e => Some (Thrown e)
  | Returned buffer => getFrameCount buffer
  end.

End Mp3Parser.

(** ** The upload route and the error middleware *)

Module UploadRoutes.

(** What the handlers pass to [res.json]. *)
Inductive body : Type :=
  | FrameCountBody (frameCount : Z)
  | ErrorBody (error : string).

(** [res.status(status).json(body)]. *)
Record response : Type := Response {
  status : Z;
  json : body;
}.

(** The errors the error middleware tells apart: a [multer.MulterError] with
    its code, an [Mp3ParserError] (the class [InvalidMp3Error] extends), and
    any other [Error]. *)
Inductive error : Type :=
  | MulterError (code message : string)
  | Mp3ParserError (e : InvalidMp3Error)
  | OtherError (message : string).

(** [errorHandler(err, req, res, next)]: the response it sends, or [None]
    where it calls [next()], which it does for an [err] that is not set. *)
Definition errorHandler (err : option error) : option response :=
  match err with
  | Some (MulterError code message) =>
      if String.eqb code "LIMIT_FILE_SIZE"
      then Some {| status := 400; json := ErrorBody "File is too large" |}
      else Some {| status := 400; json := ErrorBody message |}
  | Some (Mp3ParserError (InvalidMp3 message)) =>
      Some {| status := 400; json := ErrorBody message |}
  | Some (OtherError message) =>
      Some {| status := 400; json := ErrorBody message |}
  | None => None
  end.

(** How the route handler leaves: it has sent a response, it has called
    [next(error)], or it is still waiting for the promise. *)
Inductive exit : Type :=
  | Sent (r : response)
  | NextError (e : error)
  | Waiting.

(** The [finally] block: [if (filePath && fs.existsSync(filePath))
    fs.unlinkSync(filePath)]. *)
Definition cleanUp (fs : gmap string (list byte)) (filePath : string)
  : gmap string (list byte) :=
  if String.eqb filePath EmptyString then fs
  else
    match fs !! filePath with
    | Some _ => delete filePath fs
    | None => fs
    end.

(** The handler of [POST /file-upload], after [upload.single('file')]:
    [file] is the path of [req.file], [None] when no file was uploaded, and
    [events] is what the read stream of that file emits.  The result is how
    the handler leaves and the file system it leaves behind. *)
Definition handler (fs : gmap string (list byte)) (file : option string)
    (events : list event) : option (exit * gmap string (list byte)) :=
  match file with
  | None =>
      Some (Sent {| status := 400; json := ErrorBody "No file uploaded" |}, fs)
  | Some filePath =>
      match StreamingMp3Parser.constructor fs filePath with
      | Thrown e => Some (NextError (Mp3ParserError e), cleanUp fs filePath)
      | Returned _ =>
          settled ← StreamingMp3Parser.getFrameCount events;
          match settled with
          | Pending => Some (Waiting, fs)
          | Settled (Returned frameCount) =>
              Some (Sent {| status := 200; json := FrameCountBody frameCount |},
                    cleanUp fs filePath)
          | Settled (Thrown e) =>
              Some (NextError (Mp3ParserError e), cleanUp fs filePath)
          end
      end
  end.

(** [app.use(uploadRoutes); app.use(errorHandler)]: the response the client
    gets, [None] while the handler is waiting. *)
Definition app (fs : gmap string (list byte)) (file : option string)
    (events : list event) : option (option response * gmap string (list byte)) :=
  '(how, fs') ← handler fs file events;
  match how with
  | Sent r => Some (Some r, fs')
  | NextError e => Some (errorHandler (Some e), fs')
  | Waiting => Some (None, fs')
  end.

End UploadRoutes.

(** ** The helpers of the parser tests *)

Module TestSupport.

Definition bitrateTable : list Z :=
  [0; 32; 40; 48; 56; 64; 80; 96; 112; 128; 160; 192; 224; 256; 320; 0].

Definition sampleRateTable : list Z := [44100; 48000; 32000; 0].

(** [createValidMp3Frame(bitrate, sampleRate, padding)], for integer
    arguments: the four header bytes. *)
Definition createValidMp3Frame (bitrate sampleRate padding : Z) : list byte :=
  let buffer := Buffer.alloc 4 in
  let buffer := Buffer.set buffer 0 0xff in
  let buffer := Buffer.set buffer 1 0xe0 in
  let buffer := Buffer.or_assign buffer 1 0x18 in
  let buffer := Buffer.or_assign buffer 1 0x02 in
  let bitrateIndex := JS.indexOf bitrateTable bitrate in
  let buffer :=
    Buffer.set buffer 2 (JS.and (JS.shl bitrateIndex 4) 0xf0) in
  let sampleRateIndex := JS.indexOf sampleRateTable sampleRate in
  let buffer :=
    Buffer.or_assign buffer 2 (JS.and (JS.shl sampleRateIndex 2) 0x0c) in
  let buffer :=
    Buffer.or_assign buffer 2 (JS.and (JS.shl padding 1) 0x02) in
  buffer.

(** The frame size as the tests compute it,
    [Math.floor((144 * bitrate * 1000) / sampleRate)], plus the padding. *)
Definition frameSize (bitrate sampleRate padding : Z) : Z :=
  JS.floor_div (144 * bitrate * 1000) sampleRate + padding.

(** The input the tests build: [Buffer.alloc(frameSize * numFrames)] with
    the header copied to the start of every frame,
    [for (let i = 0; i < numFrames; i++) frameHeader.copy(buffer, i * frameSize)]. *)
Definition framesBuffer (bitrate sampleRate padding : Z) (numFrames : nat)
  : list byte :=
  let frameHeader := createValidMp3Frame bitrate sampleRate padding in
  let frameSize := frameSize bitrate sampleRate padding in
  fold_left
    (fun buffer i => Buffer.copy frameHeader buffer (Z.to_nat (Z.of_nat i * frameSize)))
    (seq 0 numFrames)
    (Buffer.alloc (frameSize * Z.of_nat numFrames)).

End TestSupport.

(** ** The streaming state against the bytes received so far *)

(** After the bytes [received] have arrived, in whatever chunks, the handlers'
    cursor is back at 0, the pending buffer is [received] without the bytes a
    single loop over [received] consumes, and the counter is that loop's. *)
Definition tracks (received : list byte) (st : StreamingMp3Parser.state) : Prop :=
  StreamingMp3Parser.offset st = 0
  /\ exists g : Z,
       0 <= g <= Buffer.length received
       /\ StreamingMp3Parser.buffer st = drop (Z.to_nat g) received
       /\ exits StreamingMp3Parser.loopBody received 0 0
            (g, StreamingMp3Parser.frameCount st).

(** What [getFrameCount] makes of the counter once the data is exhausted. *)
Definition verdict (frameCount : Z) : outcome Z :=
  if frameCount =? 0 then Thrown (InvalidMp3 "No valid MP3 frames found")
  else Returned frameCount.

(** The three terminal outcomes of a scan of [content] whose counter ends at
    [frameCount]. *)
Definition three_outcomes (content : list byte) (frameCount : Z)
    (o : outcome Z) : Prop :=
  (content = [] /\ o = Thrown (InvalidMp3 "File is empty"))
  \/ (content <> [] /\ frameCount = 0
      /\ o = Thrown (InvalidMp3 "No valid MP3 frames found"))
  \/ (content <> [] /\ 0 < frameCount /\ o = Returned frameCount).

(** A complete frame: its first bytes pass the sync test and the decoder
    gives it the length it has. *)
Definition whole_frame (frame : list byte) : Prop :=
  frame_sync frame 0 = true
  /\ 0 < StreamingMp3Parser.getFrameSize frame 0
  /\ StreamingMp3Parser.getFrameSize frame 0 = Buffer.length frame.

(** ** Test data *)

(** The header 0xFF 0xFB 0x90 0x00 and frames made of it. *)
Definition header_128_44100 : list byte := [xff; xfb; x90; x00].

Definition frame_128_44100 : list byte := header_128_44100 ++ replicate 413 x00.

(** A header the decoder rejects although it matches the sync pattern
    (bitrate index 15), one byte ahead of a frame. *)
Definition false_sync_then_frame : list byte := xff :: frame_128_44100.

(** The header of the longest frame: 320 kbps, 32000 Hz, padding 1. *)
Definition header_320_32000_padded : list byte := [xff; xfb; xea; x00].

(** The header of the shortest frame: 32 kbps, 48000 Hz, no padding. *)
Definition header_32_48000 : list byte := [xff; xfb; x14; x00].

Fixpoint frames (n : nat) : list byte :=
  match n with
  | O => []
  | S n => frame_128_44100 ++ frames n
  end.


(** ** The decoder in the specification's words *)

Module Spec.

Definition bitrateIndex (h : Z) : Z := Z.land (Z.shiftr h 12) 0xF.
Definition sampleRateIndex (h : Z) : Z := Z.land (Z.shiftr h 10) 0x3.
Definition padding (h : Z) : Z := Z.land (Z.shiftr h 9) 0x1.

Definition bitrateKbps (h : Z) : Z :=
  nth (Z.to_nat (bitrateIndex h))
    [0; 32; 40; 48; 56; 64; 80; 96; 112; 128; 160; 192; 224; 256; 320; 0] 0.

Definition sampleRateHz (h : Z) : Z :=
  nth (Z.to_nat (sampleRateIndex h)) [44100; 48000; 32000; 0] 0.

(** [decode]: 0 is the rejection, anything else the frame length. *)
Definition decode (h : Z) : Z :=
  if (bitrateKbps h =? 0) || (sampleRateHz h =? 0) then 0
  else 144 * bitrateKbps h * 1000 / sampleRateHz h + padding h.

End Spec.

(** * Properties *)

(** ** Bit fields of a header *)

Lemma ToInt32_small (x : Z) :
  - 2 ^ 31 <= x < 2 ^ 31 -> JS.ToInt32 x = x.
Proof.
  intros Hx. unfold JS.ToInt32. rewrite Z.mod_small; lia.
Qed.

Lemma ToInt32_uint32 (h : Z) :
  0 <= h < 2 ^ 32 ->
  JS.ToInt32 h = h \/ (2 ^ 31 <= h /\ JS.ToInt32 h = h - 2 ^ 32).
Proof.
  intros Hh. destruct (Z_lt_le_dec h (2 ^ 31)) as [Hlt | Hge].
  - left. apply ToInt32_small. lia.
  - right. split; [exact Hge|]. unfold JS.ToInt32.
    replace (h + 2 ^ 31) with (h - 2 ^ 31 + 1 * 2 ^ 32) by lia.
    rewrite Z.mod_add by lia. rewrite Z.mod_small; lia.
Qed.

(** Shifting the signed reading of a header right by [n] and masking the low
    bits gives the same field as on the unsigned header: the sign extension
    only touches bits the mask drops. *)
Lemma field_of_int32 (h d q m c : Z) :
  0 <= h < 2 ^ 32 -> 2 <= d -> d * q = 2 ^ 32 -> 0 < m -> q = c * m ->
  JS.ToInt32 (JS.ToInt32 h / d) mod m = (h / d) mod m.
Proof.
  intros Hh Hd Hq Hm Hc.
  assert (Hq0 : 0 < q) by nia.
  assert (Hq31 : q <= 2 ^ 31) by nia.
  assert (Hdiv : 0 <= h / d < q).
  { split; [apply Z.div_pos; lia|]. apply Z.div_lt_upper_bound; lia. }
  destruct (ToInt32_uint32 h Hh) as [-> | [Hge ->]].
  - rewrite ToInt32_small by lia. reflexivity.
  - replace (h - 2 ^ 32) with (h + (- q) * d) by lia.
    rewrite Z.div_add by lia.
    rewrite ToInt32_small by lia.
    replace (- q) with ((- c) * m) by lia.
    apply Z.mod_add. lia.
Qed.

Section Fields.

Variable h : Z.
Hypothesis h_range : 0 <= h < 2 ^ 32.

Lemma and_sar_12 : JS.and (JS.sar h 12) 0x0f = Spec.bitrateIndex h.
Proof.
  unfold JS.and, JS.sar, Spec.bitrateIndex.
  rewrite (ToInt32_small 15) by lia.
  change 15 with (Z.ones 4).
  rewrite !Z.land_ones, !Z.shiftr_div_pow2 by lia.
  apply (field_of_int32 h (2 ^ 12) (2 ^ 20) (2 ^ 4) (2 ^ 16)); lia.
Qed.

Lemma and_sar_10 : JS.and (JS.sar h 10) 0x03 = Spec.sampleRateIndex h.
Proof.
  unfold JS.and, JS.sar, Spec.sampleRateIndex.
  rewrite (ToInt32_small 3) by lia.
  change 3 with (Z.ones 2).
  rewrite !Z.land_ones, !Z.shiftr_div_pow2 by lia.
  apply (field_of_int32 h (2 ^ 10) (2 ^ 22) (2 ^ 2) (2 ^ 20)); lia.
Qed.

Lemma and_sar_9 : JS.and (JS.sar h 9) 0x01 = Spec.padding h.
Proof.
  unfold JS.and, JS.sar, Spec.padding.
  rewrite (ToInt32_small 1) by lia.
  change 1 with (Z.ones 1).
  rewrite !Z.land_ones, !Z.shiftr_div_pow2 by lia.
  apply (field_of_int32 h (2 ^ 9) (2 ^ 23) (2 ^ 1) (2 ^ 22)); lia.
Qed.

Lemma bitrateIndex_range : 0 <= Spec.bitrateIndex h < 16.
Proof.
  unfold Spec.bitrateIndex. change 0xF with (Z.ones 4).
  rewrite Z.land_ones by lia. apply Z.mod_pos_bound. lia.
Qed.

Lemma sampleRateIndex_range : 0 <= Spec.sampleRateIndex h < 4.
Proof.
  unfold Spec.sampleRateIndex. change 0x3 with (Z.ones 2).
  rewrite Z.land_ones by lia. apply Z.mod_pos_bound. lia.
Qed.

Lemma padding_range : 0 <= Spec.padding h < 2.
Proof.
  unfold Spec.padding. change 0x1 with (Z.ones 1).
  rewrite Z.land_ones by lia. apply Z.mod_pos_bound. lia.
Qed.

End Fields.

(** ** The frame-size decoder *)

(** The binary64 quotient, floored, is the integer quotient at every entry of
    the two tables: no quotient is close enough to an integer for the rounding
    of the division to cross it. *)
Lemma frame_size_by_index (bi si p : Z) :
  0 <= bi < 16 -> 0 <= si < 4 ->
  match StreamingMp3Parser.BITRATE_TABLE !! Z.to_nat bi,
        StreamingMp3Parser.SAMPLE_RATE_TABLE !! Z.to_nat si with
  | Some bitrate, Some sampleRate =>
      if (bitrate =? 0) || (sampleRate =? 0) then 0
      else
        JS.floor_div
          (MP3_CONSTANTS.FRAME_SIZE_COEFFICIENT * bitrate
           * MP3_CONSTANTS.BITRATE_MULTIPLIER)
          sampleRate
        + p
  | _, _ => 0
  end
  = let kbps :=
      nth (Z.to_nat bi)
        [0; 32; 40; 48; 56; 64; 80; 96; 112; 128; 160; 192; 224; 256; 320; 0] 0 in
    let hz := nth (Z.to_nat si) [44100; 48000; 32000; 0] 0 in
    if (kbps =? 0) || (hz =? 0) then 0 else 144 * kbps * 1000 / hz + p.
Proof.
  intros Hbi Hsi.
  assert (Eb : exists n, bi = Z.of_nat n /\ (n < 16)%nat).
  { exists (Z.to_nat bi). lia. }
  assert (Es : exists n, si = Z.of_nat n /\ (n < 4)%nat).
  { exists (Z.to_nat si). lia. }
  destruct Eb as (nb & -> & Hnb), Es as (ns & -> & Hns).
  rewrite !Nat2Z.id.
  do 16 (destruct nb as [|nb]; [do 4 (destruct ns as [|ns]; [vm_compute; reflexivity|]); lia|]).
  lia.
Qed.

Lemma frameSizeOfHeader_decode (h : Z) :
  0 <= h < 2 ^ 32 -> StreamingMp3Parser.frameSizeOfHeader h = Spec.decode h.
Proof.
  intros Hh. unfold StreamingMp3Parser.frameSizeOfHeader.
  rewrite and_sar_12, and_sar_10, and_sar_9 by exact Hh.
  apply frame_size_by_index.
  - apply bitrateIndex_range.
  - apply sampleRateIndex_range.
Qed.

Lemma Mp3Parser_frameSizeOfHeader (h : Z) :
  Mp3Parser.frameSizeOfHeader h = StreamingMp3Parser.frameSizeOfHeader h.
Proof. reflexivity. Qed.

Lemma Mp3Parser_getFrameSize (buffer : list byte) (offset : Z) :
  Mp3Parser.getFrameSize buffer offset
  = StreamingMp3Parser.getFrameSize buffer offset.
Proof. reflexivity. Qed.

Local Ltac by_index :=
  simpl nth; simpl Z.of_nat; cbv zeta;
  match goal with
  | |- context [?a / ?b] =>
      let q := eval vm_compute in (a / b) in
      change (a / b) with q
  | _ => idtac
  end;
  match goal with
  | |- context [?a || ?b] =>
      let q := eval vm_compute in (a || b) in
      change (a || b) with q
  end;
  split; [split; [intros; first [discriminate | lia] | intros; first [reflexivity | lia]]
         | intros; first [discriminate | lia]].

(** What [decode] answers, by index. *)
Lemma decode_by_index (bi si p : Z) :
  0 <= bi < 16 -> 0 <= si < 4 -> 0 <= p < 2 ->
  let kbps :=
    nth (Z.to_nat bi)
      [0; 32; 40; 48; 56; 64; 80; 96; 112; 128; 160; 192; 224; 256; 320; 0] 0 in
  let hz := nth (Z.to_nat si) [44100; 48000; 32000; 0] 0 in
  ((kbps =? 0) || (hz =? 0) = true <-> bi = 0 \/ bi = 15 \/ si = 3)
  /\ ((kbps =? 0) || (hz =? 0) = false ->
      96 <= 144 * kbps * 1000 / hz + p <= 1441).
Proof.
  intros Hbi Hsi Hp.
  assert (Eb : exists n, bi = Z.of_nat n /\ (n < 16)%nat).
  { exists (Z.to_nat bi). lia. }
  assert (Es : exists n, si = Z.of_nat n /\ (n < 4)%nat).
  { exists (Z.to_nat si). lia. }
  destruct Eb as (nb & -> & Hnb), Es as (ns & -> & Hns).
  rewrite !Nat2Z.id.
  do 16 (destruct nb as [|nb];
         [do 4 (destruct ns as [|ns]; [by_index|]); lia|]).
  lia.
Qed.

Lemma decode_zero_iff (h : Z) :
  0 <= h < 2 ^ 32 ->
  Spec.decode h = 0
  <-> Spec.bitrateIndex h = 0 \/ Spec.bitrateIndex h = 15
      \/ Spec.sampleRateIndex h = 3.
Proof.
  intros Hh.
  destruct (decode_by_index (Spec.bitrateIndex h) (Spec.sampleRateIndex h)
              (Spec.padding h)) as [Hiff Hbounds];
    [apply bitrateIndex_range | apply sampleRateIndex_range
     | apply padding_range |].
  unfold Spec.decode, Spec.bitrateKbps, Spec.sampleRateHz.
  cbv zeta in Hiff, Hbounds.
  destruct (_ || _) eqn:E.
  - split; [intros _; apply Hiff; reflexivity | reflexivity].
  - split.
    + intros H0. specialize (Hbounds eq_refl). lia.
    + intros Hidx. apply Hiff in Hidx. discriminate.
Qed.

Lemma decode_bounds (h : Z) :
  0 <= h < 2 ^ 32 -> Spec.decode h = 0 \/ 96 <= Spec.decode h <= 1441.
Proof.
  intros Hh.
  destruct (decode_by_index (Spec.bitrateIndex h) (Spec.sampleRateIndex h)
              (Spec.padding h)) as [Hiff Hbounds];
    [apply bitrateIndex_range | apply sampleRateIndex_range
     | apply padding_range |].
  unfold Spec.decode, Spec.bitrateKbps, Spec.sampleRateHz.
  cbv zeta in Hiff, Hbounds.
  destruct (_ || _) eqn:E; [left; reflexivity | right; apply Hbounds; reflexivity].
Qed.

(** ** Reading a buffer *)

Lemma value_range (b : byte) : 0 <= Buffer.value b < 256.
Proof.
  unfold Buffer.value. pose proof (Byte.to_N_bounded b) as Hb. lia.
Qed.

Lemma length_app (a b : list byte) :
  Buffer.length (a ++ b) = Buffer.length a + Buffer.length b.
Proof. unfold Buffer.length. rewrite length_app. lia. Qed.

Lemma length_nonneg (buffer : list byte) : 0 <= Buffer.length buffer.
Proof. unfold Buffer.length. lia. Qed.

Lemma length_subarray (buffer : list byte) (start : Z) :
  0 <= start ->
  Buffer.length (Buffer.subarray buffer start)
  = Z.max 0 (Buffer.length buffer - start).
Proof.
  intros Hs. unfold Buffer.length, Buffer.subarray. rewrite length_drop. lia.
Qed.

Lemma byte_at_Some (buffer : list byte) (i v : Z) :
  Buffer.byte_at buffer i = Some v ->
  0 <= i < Buffer.length buffer /\ 0 <= v < 256.
Proof.
  unfold Buffer.byte_at, Buffer.length. destruct (Z.ltb_spec i 0); [discriminate|].
  destruct (buffer !! Z.to_nat i) as [b|] eqn:E; [|discriminate].
  intros [= <-]. apply lookup_lt_Some in E. split; [lia | apply value_range].
Qed.

Lemma byte_at_is_Some (buffer : list byte) (i : Z) :
  0 <= i < Buffer.length buffer -> is_Some (Buffer.byte_at buffer i).
Proof.
  unfold Buffer.byte_at, Buffer.length. intros Hi.
  destruct (Z.ltb_spec i 0); [lia|].
  destruct (lookup_lt_is_Some_2 buffer (Z.to_nat i)) as [b ->]; [lia|].
  eexists. reflexivity.
Qed.

Lemma byte_at_app_l (buffer more : list byte) (i : Z) :
  i < Buffer.length buffer ->
  Buffer.byte_at (buffer ++ more) i = Buffer.byte_at buffer i.
Proof.
  unfold Buffer.byte_at, Buffer.length. intros Hi.
  destruct (Z.ltb_spec i 0); [reflexivity|].
  rewrite lookup_app_l by lia. reflexivity.
Qed.

Lemma byte_at_app_r (before buffer : list byte) (i : Z) :
  0 <= i ->
  Buffer.byte_at (before ++ buffer) (Buffer.length before + i)
  = Buffer.byte_at buffer i.
Proof.
  unfold Buffer.byte_at, Buffer.length. intros Hi.
  destruct (Z.ltb_spec (Z.of_nat (List.length before) + i) 0); [lia|].
  destruct (Z.ltb_spec i 0); [lia|].
  rewrite lookup_app_r by lia. do 2 f_equal. lia.
Qed.

Lemma byte_at_drop (buffer : list byte) (n : nat) (i : Z) :
  0 <= i ->
  Buffer.byte_at (drop n buffer) i = Buffer.byte_at buffer (i + Z.of_nat n).
Proof.
  unfold Buffer.byte_at. intros Hi.
  destruct (Z.ltb_spec i 0); [lia|].
  destruct (Z.ltb_spec (i + Z.of_nat n) 0); [lia|].
  rewrite lookup_drop. do 2 f_equal. lia.
Qed.

Lemma readUInt32BE_Some (buffer : list byte) (offset h : Z) :
  Buffer.readUInt32BE buffer offset = Some h ->
  0 <= offset /\ offset + 4 <= Buffer.length buffer /\ 0 <= h < 2 ^ 32.
Proof.
  unfold Buffer.readUInt32BE. intros H.
  destruct (Buffer.byte_at buffer offset) as [b0|] eqn:E0; [|discriminate].
  destruct (Buffer.byte_at buffer (offset + 1)) as [b1|] eqn:E1; [|discriminate].
  destruct (Buffer.byte_at buffer (offset + 2)) as [b2|] eqn:E2; [|discriminate].
  destruct (Buffer.byte_at buffer (offset + 3)) as [b3|] eqn:E3; [|discriminate].
  cbn in H. injection H as <-.
  apply byte_at_Some in E0, E1, E2, E3. lia.
Qed.

Lemma readUInt32BE_is_Some (buffer : list byte) (offset : Z) :
  0 <= offset -> offset + 4 <= Buffer.length buffer ->
  is_Some (Buffer.readUInt32BE buffer offset).
Proof.
  intros H0 H4. unfold Buffer.readUInt32BE.
  destruct (byte_at_is_Some buffer offset) as [b0 ->]; [lia|].
  destruct (byte_at_is_Some buffer (offset + 1)) as [b1 ->]; [lia|].
  destruct (byte_at_is_Some buffer (offset + 2)) as [b2 ->]; [lia|].
  destruct (byte_at_is_Some buffer (offset + 3)) as [b3 ->]; [lia|].
  eexists. reflexivity.
Qed.

Lemma readUInt32BE_app_l (buffer more : list byte) (offset : Z) :
  offset + 4 <= Buffer.length buffer ->
  Buffer.readUInt32BE (buffer ++ more) offset
  = Buffer.readUInt32BE buffer offset.
Proof.
  intros H. unfold Buffer.readUInt32BE. rewrite !byte_at_app_l by lia.
  reflexivity.
Qed.

Lemma readUInt32BE_drop (buffer : list byte) (n : nat) (offset : Z) :
  0 <= offset ->
  Buffer.readUInt32BE (drop n buffer) offset
  = Buffer.readUInt32BE buffer (offset + Z.of_nat n).
Proof.
  intros H. unfold Buffer.readUInt32BE. rewrite !byte_at_drop by lia.
  replace (offset + 1 + Z.of_nat n) with (offset + Z.of_nat n + 1) by lia.
  replace (offset + 2 + Z.of_nat n) with (offset + Z.of_nat n + 2) by lia.
  replace (offset + 3 + Z.of_nat n) with (offset + Z.of_nat n + 3) by lia.
  reflexivity.
Qed.

(** Every 32-bit value is the header some buffer holds. *)
Lemma readUInt32BE_onto (h : Z) :
  0 <= h < 2 ^ 32 ->
  exists buffer : list byte,
    List.length buffer = 4%nat /\ Buffer.readUInt32BE buffer 0 = Some h.
Proof.
  intros Hh.
  assert (Hbyte : forall v, 0 <= v < 256 ->
            exists b : byte, Buffer.value b = v).
  { intros v Hv. destruct (Byte.of_N (Z.to_N v)) as [b|] eqn:E.
    - exists b. unfold Buffer.value. apply Byte.to_of_N in E. lia.
    - apply Byte.of_N_None_iff in E. lia. }
  destruct (Hbyte (h / 2 ^ 24)) as [b0 H0].
  { split; [apply Z.div_pos; lia | apply Z.div_lt_upper_bound; lia]. }
  destruct (Hbyte (h / 2 ^ 16 mod 256)) as [b1 H1]; [apply Z.mod_pos_bound; lia|].
  destruct (Hbyte (h / 2 ^ 8 mod 256)) as [b2 H2]; [apply Z.mod_pos_bound; lia|].
  destruct (Hbyte (h mod 256)) as [b3 H3]; [apply Z.mod_pos_bound; lia|].
  exists [b0; b1; b2; b3]. split; [reflexivity|].
  change (Buffer.readUInt32BE [b0; b1; b2; b3] 0)
    with (Some (Buffer.value b0 * 2 ^ 24 + Buffer.value b1 * 2 ^ 16
                + Buffer.value b2 * 2 ^ 8 + Buffer.value b3)).
  f_equal. rewrite H0, H1, H2, H3.
  change (2 ^ 24) with 16777216. change (2 ^ 16) with 65536.
  change (2 ^ 8) with 256.
  Z.div_mod_to_equations. lia.
Qed.

(** ** [getFrameSize] and the sync test on longer and shorter buffers *)

Lemma getFrameSize_header (buffer : list byte) (offset h : Z) :
  Buffer.readUInt32BE buffer offset = Some h ->
  StreamingMp3Parser.getFrameSize buffer offset = Spec.decode h.
Proof.
  intros Hread. destruct (readUInt32BE_Some _ _ _ Hread) as (H0 & H4 & Hh).
  unfold StreamingMp3Parser.getFrameSize, MP3_CONSTANTS.MIN_HEADER_SIZE.
  destruct (Z.gtb_spec (offset + 4) (Buffer.length buffer)); [lia|].
  rewrite Hread. apply frameSizeOfHeader_decode, Hh.
Qed.

Lemma getFrameSize_bounds (buffer : list byte) (offset : Z) :
  StreamingMp3Parser.getFrameSize buffer offset = 0
  \/ 96 <= StreamingMp3Parser.getFrameSize buffer offset <= 1441.
Proof.
  destruct (Buffer.readUInt32BE buffer offset) as [h|] eqn:Hread.
  - rewrite (getFrameSize_header _ _ _ Hread).
    apply decode_bounds. apply (readUInt32BE_Some _ _ _ Hread).
  - left. unfold StreamingMp3Parser.getFrameSize. rewrite Hread.
    destruct (_ >? _); reflexivity.
Qed.

Lemma getFrameSize_app_l (buffer more : list byte) (offset : Z) :
  offset + 4 <= Buffer.length buffer ->
  StreamingMp3Parser.getFrameSize (buffer ++ more) offset
  = StreamingMp3Parser.getFrameSize buffer offset.
Proof.
  intros H. unfold StreamingMp3Parser.getFrameSize, MP3_CONSTANTS.MIN_HEADER_SIZE.
  rewrite readUInt32BE_app_l by exact H. rewrite length_app.
  pose proof (length_nonneg more).
  destruct (Z.gtb_spec (offset + 4) (Buffer.length buffer + Buffer.length more));
    destruct (Z.gtb_spec (offset + 4) (Buffer.length buffer)); try lia; reflexivity.
Qed.

Lemma getFrameSize_drop (buffer : list byte) (n : nat) (offset : Z) :
  0 <= offset -> Z.of_nat n <= Buffer.length buffer ->
  StreamingMp3Parser.getFrameSize (drop n buffer) offset
  = StreamingMp3Parser.getFrameSize buffer (offset + Z.of_nat n).
Proof.
  intros H0 Hn. unfold StreamingMp3Parser.getFrameSize, MP3_CONSTANTS.MIN_HEADER_SIZE.
  rewrite readUInt32BE_drop by exact H0.
  assert (Hlen : Buffer.length (drop n buffer) = Buffer.length buffer - Z.of_nat n).
  { unfold Buffer.length in *. rewrite length_drop. lia. }
  rewrite Hlen.
  destruct (Z.gtb_spec (offset + 4) (Buffer.length buffer - Z.of_nat n));
    destruct (Z.gtb_spec (offset + Z.of_nat n + 4) (Buffer.length buffer));
    try lia; reflexivity.
Qed.

Lemma frame_sync_app_l (buffer more : list byte) (offset : Z) :
  offset + 2 <= Buffer.length buffer ->
  frame_sync (buffer ++ more) offset = frame_sync buffer offset.
Proof.
  intros H. unfold frame_sync. rewrite !byte_at_app_l by lia. reflexivity.
Qed.

Lemma frame_sync_drop (buffer : list byte) (n : nat) (offset : Z) :
  0 <= offset ->
  frame_sync (drop n buffer) offset = frame_sync buffer (offset + Z.of_nat n).
Proof.
  intros H. unfold frame_sync. rewrite !byte_at_drop by lia.
  replace (offset + 1 + Z.of_nat n) with (offset + Z.of_nat n + 1) by lia.
  reflexivity.
Qed.

Lemma frame_sync_in_range (buffer : list byte) (offset : Z) :
  frame_sync buffer offset = true ->
  0 <= offset /\ offset + 2 <= Buffer.length buffer.
Proof.
  unfold frame_sync.
  destruct (Buffer.byte_at buffer offset) eqn:E0; [|discriminate].
  destruct (Buffer.byte_at buffer (offset + 1)) eqn:E1; [|discriminate].
  intros _. apply byte_at_Some in E0, E1. lia.
Qed.

(** At a cursor that passes the sync test inside the loop the read of the
    header stays inside the buffer: [getFrameSize] never reaches Node's
    [RangeError] there. *)
Lemma getFrameSize_reads_inside (buffer : list byte) (offset : Z) :
  frame_sync buffer offset = true ->
  offset + MP3_CONSTANTS.MIN_HEADER_SIZE <= Buffer.length buffer ->
  exists h, Buffer.readUInt32BE buffer offset = Some h
            /\ StreamingMp3Parser.getFrameSize buffer offset = Spec.decode h.
Proof.
  intros Hsync Hroom. destruct (frame_sync_in_range _ _ Hsync) as [H0 _].
  destruct (readUInt32BE_is_Some buffer offset H0 Hroom) as [h Hread].
  exists h. split; [exact Hread | apply getFrameSize_header, Hread].
Qed.

(** ** The scan loop, whatever its body *)

Section ScanWhile.

Variable body : list byte -> Z -> Z -> iteration.

Lemma scan_while_exits (fuel : nat) (buffer : list byte) (o c : Z) (r : Z * Z) :
  scan_while body fuel buffer o c = Some r -> exits body buffer o c r.
Proof.
  revert o c. induction fuel as [|fuel IH]; intros o c; simpl.
  - destruct (Z.ltb_spec o (Buffer.length buffer - MP3_CONSTANTS.MIN_HEADER_SIZE));
      [discriminate|].
    intros [= <-]. apply exits_guard. lia.
  - destruct (Z.ltb_spec o (Buffer.length buffer - MP3_CONSTANTS.MIN_HEADER_SIZE))
      as [Hlt|Hge].
    + destruct (body buffer o c) as [o' c'|] eqn:Hbody.
      * intros H. eapply exits_next; eauto.
      * intros [= <-]. apply exits_break; assumption.
    + intros [= <-]. apply exits_guard. lia.
Qed.

Lemma exits_deterministic (buffer : list byte) (o c : Z) (r r' : Z * Z) :
  exits body buffer o c r -> exits body buffer o c r' -> r = r'.
Proof.
  intros H. revert r'.
  induction H as [o c Hg | o c Hlt Hb | o c o' c' r Hlt Hb H IH]; intros r' H';
    inversion H'; subst; try reflexivity; try contradiction; try congruence.
  apply IH. congruence.
Qed.

(** Every pass moves the cursor forward: what makes the loop stop. *)
Hypothesis body_advances :
  forall buffer o c o' c', body buffer o c = Next o' c' -> o < o'.

Lemma scan_while_enough (fuel : nat) (buffer : list byte) (o c : Z) :
  Buffer.length buffer - MP3_CONSTANTS.MIN_HEADER_SIZE - o <= Z.of_nat fuel ->
  is_Some (scan_while body fuel buffer o c).
Proof.
  revert o c. induction fuel as [|fuel IH]; intros o c Hfuel; simpl.
  - destruct (Z.ltb_spec o (Buffer.length buffer - MP3_CONSTANTS.MIN_HEADER_SIZE));
      [lia | eexists; reflexivity].
  - destruct (Z.ltb_spec o (Buffer.length buffer - MP3_CONSTANTS.MIN_HEADER_SIZE));
      [|eexists; reflexivity].
    destruct (body buffer o c) as [o' c'|] eqn:Hbody; [|eexists; reflexivity].
    apply IH. apply body_advances in Hbody. lia.
Qed.

Lemma exits_scan_while (fuel : nat) (buffer : list byte) (o c : Z) (r : Z * Z) :
  exits body buffer o c r ->
  Buffer.length buffer - MP3_CONSTANTS.MIN_HEADER_SIZE - o <= Z.of_nat fuel ->
  scan_while body fuel buffer o c = Some r.
Proof.
  intros Hexits Hfuel.
  destruct (scan_while_enough fuel buffer o c Hfuel) as [r' Hr'].
  rewrite Hr'. f_equal.
  eapply exits_deterministic; [apply (scan_while_exits fuel); exact Hr' | exact Hexits].
Qed.

(** The loop by well-founded recursion exits where the relation says, and
    the fuelled loop returns its result. *)
Lemma scan_wf_exits (buffer : list byte) (o c : Z) :
  exits body buffer o c (scan_wf body body_advances buffer o c).
Proof.
  funelim (scan_wf body body_advances buffer o c).
  - apply exits_guard. assumption.
  - eapply exits_next; eassumption.
  - apply exits_break; assumption.
Qed.

Lemma scan_while_scan_wf (fuel : nat) (buffer : list byte) (o c : Z) :
  Buffer.length buffer - MP3_CONSTANTS.MIN_HEADER_SIZE - o <= Z.of_nat fuel ->
  scan_while body fuel buffer o c
  = Some (scan_wf body body_advances buffer o c).
Proof.
  intros Hfuel. apply exits_scan_while; [apply scan_wf_exits | exact Hfuel].
Qed.

Lemma exits_total (buffer : list byte) (o c : Z) :
  exists r, exits body buffer o c r.
Proof.
  destruct (scan_while_enough
              (Z.to_nat (Buffer.length buffer - MP3_CONSTANTS.MIN_HEADER_SIZE - o))
              buffer o c) as [r Hr]; [lia|].
  exists r. eapply scan_while_exits. exact Hr.
Qed.

Lemma exits_cursor_monotone (buffer : list byte) (o c : Z) (r : Z * Z) :
  exits body buffer o c r -> o <= r.1.
Proof.
  induction 1 as [| |o c o' c' r Hlt Hb H IH]; simpl; try lia.
  apply body_advances in Hb. lia.
Qed.

(** The bytes ahead of the cursor, [length - offset], decrease with every
    pass, so [pass] is well founded. *)
Lemma pass_well_founded (buffer : list byte) : well_founded (pass body buffer).
Proof.
  apply (well_founded_lt_compat _
           (fun s => Z.to_nat (Buffer.length buffer - s.1))).
  intros s' s [Hlt Hb]. apply body_advances in Hb.
  unfold MP3_CONSTANTS.MIN_HEADER_SIZE in Hlt. lia.
Qed.

End ScanWhile.

(** ** The two loop bodies *)

(** What one pass of the streaming body does, case by case. *)
Lemma streaming_body_cases (buffer : list byte) (o c : Z) :
  let L := StreamingMp3Parser.getFrameSize buffer o in
  (frame_sync buffer o = false
   /\ StreamingMp3Parser.loopBody buffer o c = Next (o + 1) c)
  \/ (frame_sync buffer o = true /\ L = 0
      /\ StreamingMp3Parser.loopBody buffer o c = Next (o + 1) c)
  \/ (frame_sync buffer o = true /\ 96 <= L <= 1441
      /\ o + L <= Buffer.length buffer
      /\ StreamingMp3Parser.loopBody buffer o c = Next (o + L) (c + 1))
  \/ (frame_sync buffer o = true /\ 96 <= L <= 1441
      /\ Buffer.length buffer < o + L
      /\ StreamingMp3Parser.loopBody buffer o c = Break).
Proof.
  intros L. unfold StreamingMp3Parser.loopBody. fold L.
  destruct (frame_sync buffer o); [|left; split; reflexivity].
  right. destruct (getFrameSize_bounds buffer o) as [H0 | Hb]; fold L in H0 || fold L in Hb.
  - left. rewrite H0. repeat split; reflexivity.
  - right. destruct (Z.gtb_spec L 0); [|lia].
    destruct (Z.leb_spec (o + L) (Buffer.length buffer)); [left | right];
      repeat split; lia || reflexivity.
Qed.

(** What one pass of the whole-buffer body does, case by case. *)
Lemma whole_body_cases (buffer : list byte) (o c : Z) :
  let L := Mp3Parser.getFrameSize buffer o in
  (frame_sync buffer o = false
   /\ Mp3Parser.loopBody buffer o c = Next (o + 1) c)
  \/ (frame_sync buffer o = true /\ L = 0
      /\ Mp3Parser.loopBody buffer o c = Next (o + 1) c)
  \/ (frame_sync buffer o = true /\ 96 <= L <= 1441
      /\ Mp3Parser.loopBody buffer o c = Next (o + L) (c + 1)).
Proof.
  intros L. unfold Mp3Parser.loopBody. fold L.
  destruct (frame_sync buffer o); [|left; split; reflexivity].
  right. unfold L. rewrite Mp3Parser_getFrameSize.
  destruct (getFrameSize_bounds buffer o) as [H0 | Hb].
  - left. rewrite H0. repeat split; reflexivity.
  - right. destruct (Z.gtb_spec (StreamingMp3Parser.getFrameSize buffer o) 0); [|lia].
    repeat split; lia || reflexivity.
Qed.

Lemma streaming_body_advances (buffer : list byte) (o c o' c' : Z) :
  StreamingMp3Parser.loopBody buffer o c = Next o' c' -> o < o'.
Proof.
  destruct (streaming_body_cases buffer o c)
    as [[_ ->] | [(_ & _ & ->) | [(_ & HL & _ & ->) | (_ & _ & _ & ->)]]];
    intros [= <- <-] || discriminate; lia.
Qed.

Lemma whole_body_advances (buffer : list byte) (o c o' c' : Z) :
  Mp3Parser.loopBody buffer o c = Next o' c' -> o < o'.
Proof.
  destruct (whole_body_cases buffer o c)
    as [[_ ->] | [(_ & _ & ->) | (_ & HL & ->)]];
    intros [= <- <-]; lia.
Qed.

Lemma whole_body_never_breaks (buffer : list byte) (o c : Z) :
  Mp3Parser.loopBody buffer o c <> Break.
Proof.
  destruct (whole_body_cases buffer o c)
    as [[_ ->] | [(_ & _ & ->) | (_ & HL & ->)]]; discriminate.
Qed.

(** ** The streaming loop on a buffer that grows and on one that is cut *)

(** A pass that completes on a buffer completes in the same way once more
    bytes have been appended. *)
Lemma streaming_body_app (buffer more : list byte) (o c o' c' : Z) :
  o < Buffer.length buffer - MP3_CONSTANTS.MIN_HEADER_SIZE ->
  StreamingMp3Parser.loopBody buffer o c = Next o' c' ->
  StreamingMp3Parser.loopBody (buffer ++ more) o c = Next o' c'.
Proof.
  unfold MP3_CONSTANTS.MIN_HEADER_SIZE. intros Hlt.
  unfold StreamingMp3Parser.loopBody.
  rewrite frame_sync_app_l, getFrameSize_app_l, length_app by lia.
  pose proof (length_nonneg more).
  destruct (frame_sync buffer o); [|tauto].
  destruct (_ >? 0); [|tauto].
  destruct (Z.leb_spec (o + StreamingMp3Parser.getFrameSize buffer o)
              (Buffer.length buffer)); [|discriminate].
  destruct (Z.leb_spec (o + StreamingMp3Parser.getFrameSize buffer o)
              (Buffer.length buffer + Buffer.length more)); [tauto | lia].
Qed.

(** The loop on the longer buffer passes through the state in which the loop
    on the shorter one stopped. *)
Lemma streaming_exits_app (buffer more : list byte) (o c : Z) (mid final : Z * Z) :
  exits StreamingMp3Parser.loopBody buffer o c mid ->
  exits StreamingMp3Parser.loopBody (buffer ++ more) mid.1 mid.2 final ->
  exits StreamingMp3Parser.loopBody (buffer ++ more) o c final.
Proof.
  induction 1 as [o c Hg | o c Hlt Hb | o c o' c' mid Hlt Hb H IH]; simpl;
    try tauto.
  intros Hfinal. eapply exits_next.
  - rewrite length_app. pose proof (length_nonneg more). lia.
  - apply streaming_body_app; eassumption.
  - apply IH, Hfinal.
Qed.

(** Dropping [n] consumed bytes shifts every cursor by [n]. *)
Lemma streaming_body_drop (buffer : list byte) (n : nat) (o c : Z) :
  0 <= o -> Z.of_nat n <= Buffer.length buffer ->
  StreamingMp3Parser.loopBody (drop n buffer) o c
  = match StreamingMp3Parser.loopBody buffer (o + Z.of_nat n) c with
    | Next o' c' => Next (o' - Z.of_nat n) c'
    | Break => Break
    end.
Proof.
  intros Ho Hn. unfold StreamingMp3Parser.loopBody.
  rewrite frame_sync_drop, getFrameSize_drop by assumption.
  assert (Hlen : Buffer.length (drop n buffer) = Buffer.length buffer - Z.of_nat n).
  { unfold Buffer.length in *. rewrite length_drop. lia. }
  rewrite Hlen.
  destruct (frame_sync buffer (o + Z.of_nat n)); [|f_equal; lia].
  set (L := StreamingMp3Parser.getFrameSize buffer (o + Z.of_nat n)).
  destruct (L >? 0); [|f_equal; lia].
  destruct (Z.leb_spec (o + L) (Buffer.length buffer - Z.of_nat n));
    destruct (Z.leb_spec (o + Z.of_nat n + L) (Buffer.length buffer));
    try lia; try reflexivity.
  f_equal; lia.
Qed.

Lemma streaming_exits_drop (buffer : list byte) (n : nat) (o c : Z) (r : Z * Z) :
  0 <= o -> Z.of_nat n <= Buffer.length buffer ->
  exits StreamingMp3Parser.loopBody (drop n buffer) o c r ->
  exits StreamingMp3Parser.loopBody buffer (o + Z.of_nat n) c
    (r.1 + Z.of_nat n, r.2).
Proof.
  intros Ho Hn H.
  assert (Hlen : Buffer.length (drop n buffer) = Buffer.length buffer - Z.of_nat n).
  { unfold Buffer.length in *. rewrite length_drop. lia. }
  remember (drop n buffer) as cut eqn:Hcut.
  induction H as [o c Hg | o c Hlt Hb | o c o' c' r Hlt Hb H IH]; simpl; subst cut.
  - apply exits_guard. lia.
  - rewrite streaming_body_drop in Hb by assumption.
    apply exits_break; [lia|].
    destruct (StreamingMp3Parser.loopBody buffer (o + Z.of_nat n) c);
      [discriminate | reflexivity].
  - pose proof (streaming_body_advances _ _ _ _ _ Hb) as Hadv.
    rewrite streaming_body_drop in Hb by assumption.
    destruct (StreamingMp3Parser.loopBody buffer (o + Z.of_nat n) c)
      as [o1 c1|] eqn:Hb1; [|discriminate].
    injection Hb as <- <-.
    eapply exits_next; [lia | exact Hb1 |].
    replace o1 with (o1 - Z.of_nat n + Z.of_nat n) at 1 by lia.
    apply IH; first [lia | reflexivity | assumption].
Qed.

(** The streaming cursor never passes the end of the buffer. *)
Lemma streaming_exits_in_buffer (buffer : list byte) (o c : Z) (r : Z * Z) :
  exits StreamingMp3Parser.loopBody buffer o c r ->
  o <= Buffer.length buffer ->
  o <= r.1 <= Buffer.length buffer /\ c <= r.2.
Proof.
  unfold MP3_CONSTANTS.MIN_HEADER_SIZE.
  induction 1 as [o c Hg | o c Hlt Hb | o c o' c' r Hlt Hb H IH]; simpl;
    intros Hle; try lia.
  destruct (streaming_body_cases buffer o c)
    as [[_ E] | [(_ & _ & E) | [(_ & HL & Hfit & E) | (_ & _ & _ & E)]]];
    rewrite E in Hb; try discriminate; injection Hb as <- <-;
    unfold MP3_CONSTANTS.MIN_HEADER_SIZE in *; lia.
Qed.

(** Where the streaming loop stopped: with at most four bytes ahead, or
    suspended in front of an accepted frame whose end is not buffered. *)
Lemma streaming_exits_stop (buffer : list byte) (o c : Z) (r : Z * Z) :
  exits StreamingMp3Parser.loopBody buffer o c r ->
  Buffer.length buffer - MP3_CONSTANTS.MIN_HEADER_SIZE <= r.1
  \/ (r.1 < Buffer.length buffer - MP3_CONSTANTS.MIN_HEADER_SIZE
      /\ StreamingMp3Parser.loopBody buffer r.1 r.2 = Break).
Proof.
  induction 1 as [o c Hg | o c Hlt Hb | o c o' c' r Hlt Hb H IH]; simpl;
    [left; lia | right; tauto | exact IH].
Qed.

(** ** The streaming scanner does not see the chunk boundaries *)

Lemma tracks_initial : tracks [] StreamingMp3Parser.initial.
Proof.
  split; [reflexivity|]. exists 0.
  split; [unfold Buffer.length; simpl; lia|].
  split; [reflexivity|].
  apply exits_guard. unfold Buffer.length, MP3_CONSTANTS.MIN_HEADER_SIZE.
  simpl. lia.
Qed.

Lemma onData_tracks (received chunk : list byte) (st : StreamingMp3Parser.state) :
  tracks received st ->
  exists st', StreamingMp3Parser.onData st chunk = Some st'
              /\ tracks (received ++ chunk) st'.
Proof.
  intros (Hoff & g & Hg & Hbuf & Hex).
  unfold StreamingMp3Parser.onData, Buffer.concat2. rewrite Hoff, Hbuf.
  assert (Hcut : drop (Z.to_nat g) received ++ chunk
                 = drop (Z.to_nat g) (received ++ chunk)).
  { rewrite drop_app_le; [reflexivity|]. unfold Buffer.length in Hg. lia. }
  rewrite Hcut. set (all := received ++ chunk).
  assert (Hall : Buffer.length received <= Buffer.length all).
  { unfold all. rewrite length_app. pose proof (length_nonneg chunk). lia. }
  assert (Hlen : Buffer.length (drop (Z.to_nat g) all) = Buffer.length all - g).
  { unfold Buffer.length in *. rewrite length_drop. lia. }
  destruct (scan_while_enough _ streaming_body_advances
              (List.length (drop (Z.to_nat g) all)) (drop (Z.to_nat g) all) 0
              (StreamingMp3Parser.frameCount st)) as [[o' c'] Hscan].
  { unfold MP3_CONSTANTS.MIN_HEADER_SIZE, Buffer.length. lia. }
  unfold StreamingMp3Parser.scanLoop. rewrite Hscan. simpl.
  apply scan_while_exits in Hscan.
  destruct (streaming_exits_in_buffer _ _ _ _ Hscan) as [Ho' _]; [lia|].
  simpl in Ho'.
  apply streaming_exits_drop in Hscan; [|lia|lia]. simpl in Hscan.
  rewrite Z2Nat.id in Hscan by lia.
  assert (Hfinal : exits StreamingMp3Parser.loopBody all 0 0 (o' + g, c')).
  { eapply streaming_exits_app; [exact Hex | exact Hscan]. }
  eexists. split; [reflexivity|].
  destruct (Z.gtb_spec o' 0) as [Hpos | Hzero].
  - split; [reflexivity|]. exists (o' + g). simpl. repeat split; try lia.
    + unfold Buffer.subarray. rewrite drop_drop. f_equal. lia.
    + exact Hfinal.
  - assert (o' = 0) by lia. subst o'.
    split; [reflexivity|]. exists g. simpl. repeat split; try lia.
    exact Hfinal.
Qed.

Lemma feed_tracks (chunks : list (list byte)) :
  forall (received : list byte) (st : StreamingMp3Parser.state),
    tracks received st ->
    exists st', StreamingMp3Parser.feed st chunks = Some st'
                /\ tracks (received ++ concat chunks) st'.
Proof.
  induction chunks as [|chunk chunks IH]; intros received st Htr; simpl.
  - exists st. rewrite app_nil_r. split; [reflexivity | exact Htr].
  - destruct (onData_tracks received chunk st Htr) as (st1 & -> & Htr1). simpl.
    destruct (IH _ _ Htr1) as (st' & Hfeed & Htr').
    exists st'. rewrite app_assoc. split; assumption.
Qed.

Lemma handle_delivery (chunks : list (list byte)) :
  forall st : StreamingMp3Parser.state,
    StreamingMp3Parser.handle st (StreamingMp3Parser.delivery chunks)
    = st' ← StreamingMp3Parser.feed st chunks;
      Some (Settled (StreamingMp3Parser.onEnd st')).
Proof.
  induction chunks as [|chunk chunks IH]; intros st; simpl; [reflexivity|].
  destruct (StreamingMp3Parser.onData st chunk) as [st1|]; simpl;
    [apply IH | reflexivity].
Qed.

Lemma streaming_counter_nonneg (buffer : list byte) (o c : Z) (r : Z * Z) :
  exits StreamingMp3Parser.loopBody buffer o c r -> c <= r.2.
Proof.
  induction 1 as [o c Hg | o c Hlt Hb | o c o' c' r Hlt Hb H IH]; simpl; try lia.
  destruct (streaming_body_cases buffer o c)
    as [[_ E] | [(_ & _ & E) | [(_ & HL & Hfit & E) | (_ & _ & _ & E)]]];
    rewrite E in Hb; try discriminate; injection Hb as <- <-; lia.
Qed.

(** Whatever the chunks, the promise settles as one loop over all the bytes
    would have it. *)
Lemma streaming_getFrameCount (chunks : list (list byte)) :
  exists g c : Z,
    exits StreamingMp3Parser.loopBody (concat chunks) 0 0 (g, c)
    /\ 0 <= c
    /\ StreamingMp3Parser.feed StreamingMp3Parser.initial chunks
       = Some {| StreamingMp3Parser.frameCount := c;
                 StreamingMp3Parser.buffer := drop (Z.to_nat g) (concat chunks);
                 StreamingMp3Parser.offset := 0 |}
    /\ StreamingMp3Parser.getFrameCount (StreamingMp3Parser.delivery chunks)
       = Some (Settled (verdict c)).
Proof.
  destruct (feed_tracks chunks [] _ tracks_initial)
    as (st & Hfeed & Hoff & g & Hg & Hbuf & Hex).
  simpl in *.
  exists g, (StreamingMp3Parser.frameCount st). split; [exact Hex|].
  split; [apply (streaming_counter_nonneg _ _ _ _ Hex)|].
  unfold StreamingMp3Parser.getFrameCount. rewrite handle_delivery, Hfeed.
  split; [|reflexivity].
  f_equal. destruct st as [c b o]. simpl in *. subst. reflexivity.
Qed.

(** The same, from a run of the loop on the whole input. *)
Lemma streaming_from_scan (fuel : nat) (buffer : list byte) (g c : Z)
    (chunks : list (list byte)) :
  StreamingMp3Parser.scanLoop fuel buffer 0 0 = Some (g, c) ->
  concat chunks = buffer ->
  StreamingMp3Parser.getFrameCount (StreamingMp3Parser.delivery chunks)
  = Some (Settled (verdict c)).
Proof.
  intros Hscan <-.
  destruct (streaming_getFrameCount chunks) as (g' & c' & Hex & _ & _ & ->).
  apply scan_while_exits in Hscan.
  pose proof (exits_deterministic _ _ _ _ _ _ Hex Hscan) as [= -> ->].
  reflexivity.
Qed.

Lemma streaming_chunking_irrelevant (chunks chunks' : list (list byte)) :
  concat chunks = concat chunks' ->
  StreamingMp3Parser.getFrameCount (StreamingMp3Parser.delivery chunks)
  = StreamingMp3Parser.getFrameCount (StreamingMp3Parser.delivery chunks').
Proof.
  intros Heq.
  destruct (streaming_getFrameCount chunks) as (g & c & Hex & _ & _ & ->).
  destruct (streaming_getFrameCount chunks') as (g' & c' & Hex' & _ & _ & ->).
  rewrite Heq in Hex.
  pose proof (exits_deterministic _ _ _ _ _ _ Hex Hex') as [= -> ->].
  reflexivity.
Qed.

(** ** The whole-buffer scanner *)

Lemma whole_getFrameCount (buffer : list byte) :
  exists g c : Z,
    exits Mp3Parser.loopBody buffer 0 0 (g, c)
    /\ Mp3Parser.getFrameCount buffer = Some (verdict c).
Proof.
  destruct (scan_while_enough _ whole_body_advances (List.length buffer)
              buffer 0 0) as [[g c] Hscan].
  { unfold MP3_CONSTANTS.MIN_HEADER_SIZE, Buffer.length. lia. }
  exists g, c. split; [apply (scan_while_exits _ _ _ _ _ _ Hscan)|].
  unfold Mp3Parser.getFrameCount, Mp3Parser.scanLoop. rewrite Hscan.
  reflexivity.
Qed.


(** ** Bytes in front of a frame *)

Lemma frame_sync_app_r (before buffer : list byte) (o : Z) :
  0 <= o ->
  frame_sync (before ++ buffer) (Buffer.length before + o) = frame_sync buffer o.
Proof.
  intros Ho. unfold frame_sync.
  replace (Buffer.length before + o + 1) with (Buffer.length before + (o + 1))
    by lia.
  rewrite !byte_at_app_r by lia. reflexivity.
Qed.

Lemma getFrameSize_app_r (before buffer : list byte) (o : Z) :
  0 <= o ->
  StreamingMp3Parser.getFrameSize (before ++ buffer) (Buffer.length before + o)
  = StreamingMp3Parser.getFrameSize buffer o.
Proof.
  intros Ho.
  rewrite <- (drop_app_length before buffer) at 2.
  rewrite getFrameSize_drop.
  - f_equal. unfold Buffer.length. lia.
  - exact Ho.
  - rewrite length_app. pose proof (length_nonneg buffer).
    unfold Buffer.length in *. lia.
Qed.

(** A stretch of cursors at which the body steps by one byte and leaves the
    counter alone is walked byte by byte. *)
Lemma exits_skip (body : list byte -> Z -> Z -> iteration) (buffer : list byte)
    (c : Z) (r : Z * Z) (n : nat) :
  forall a : Z,
    (forall i, a <= i < a + Z.of_nat n -> body buffer i c = Next (i + 1) c) ->
    a + Z.of_nat n <= Buffer.length buffer - MP3_CONSTANTS.MIN_HEADER_SIZE ->
    exits body buffer (a + Z.of_nat n) c r ->
    exits body buffer a c r.
Proof.
  induction n as [|n IH]; intros a Hstep Hroom Hexit.
  - replace a with (a + Z.of_nat 0) by lia. exact Hexit.
  - eapply exits_next; [lia | apply Hstep; lia |].
    apply IH.
    + intros i Hi. apply Hstep. lia.
    + lia.
    + replace (a + 1 + Z.of_nat n) with (a + Z.of_nat (S n)) by lia.
      exact Hexit.
Qed.

(** From a run of the loop over all the bytes to the handlers' final state
    and the promise. *)
Lemma streaming_run (chunks : list (list byte)) (g c : Z) :
  exits StreamingMp3Parser.loopBody (concat chunks) 0 0 (g, c) ->
  StreamingMp3Parser.feed StreamingMp3Parser.initial chunks
  = Some {| StreamingMp3Parser.frameCount := c;
            StreamingMp3Parser.buffer := drop (Z.to_nat g) (concat chunks);
            StreamingMp3Parser.offset := 0 |}
  /\ StreamingMp3Parser.getFrameCount (StreamingMp3Parser.delivery chunks)
     = Some (Settled (verdict c)).
Proof.
  intros Hex.
  destruct (streaming_getFrameCount chunks) as (g' & c' & Hex' & _ & -> & ->).
  pose proof (exits_deterministic _ _ _ _ _ _ Hex Hex') as [= -> ->].
  split; reflexivity.
Qed.

(** A frame that fills the rest of the buffer is counted and ends the loop,
    in both scanners. *)
Lemma streaming_exits_last_frame (buffer : list byte) (o c : Z) :
  frame_sync buffer o = true ->
  0 < StreamingMp3Parser.getFrameSize buffer o ->
  o + StreamingMp3Parser.getFrameSize buffer o = Buffer.length buffer ->
  exits StreamingMp3Parser.loopBody buffer o c (Buffer.length buffer, c + 1).
Proof.
  intros Hs HL Hend.
  destruct (getFrameSize_bounds buffer o) as [H0 | Hb]; [lia|].
  unfold MP3_CONSTANTS.MIN_HEADER_SIZE.
  eapply exits_next.
  - unfold MP3_CONSTANTS.MIN_HEADER_SIZE. lia.
  - unfold StreamingMp3Parser.loopBody. rewrite Hs.
    destruct (Z.gtb_spec (StreamingMp3Parser.getFrameSize buffer o) 0); [|lia].
    destruct (Z.leb_spec (o + StreamingMp3Parser.getFrameSize buffer o)
                (Buffer.length buffer)); [|lia].
    rewrite Hend. reflexivity.
  - apply exits_guard. unfold MP3_CONSTANTS.MIN_HEADER_SIZE. lia.
Qed.

Lemma whole_exits_last_frame (buffer : list byte) (o c : Z) :
  frame_sync buffer o = true ->
  0 < Mp3Parser.getFrameSize buffer o ->
  o + Mp3Parser.getFrameSize buffer o = Buffer.length buffer ->
  exits Mp3Parser.loopBody buffer o c (Buffer.length buffer, c + 1).
Proof.
  intros Hs HL Hend. rewrite Mp3Parser_getFrameSize in *.
  destruct (getFrameSize_bounds buffer o) as [H0 | Hb]; [lia|].
  eapply exits_next.
  - unfold MP3_CONSTANTS.MIN_HEADER_SIZE. lia.
  - unfold Mp3Parser.loopBody. rewrite Hs, Mp3Parser_getFrameSize.
    destruct (Z.gtb_spec (StreamingMp3Parser.getFrameSize buffer o) 0); [|lia].
    rewrite Hend. reflexivity.
  - apply exits_guard. unfold MP3_CONSTANTS.MIN_HEADER_SIZE. lia.
Qed.

Lemma verdict_positive (c : Z) : 0 < c -> verdict c = Returned c.
Proof.
  intros Hc. unfold verdict. destruct (Z.eqb_spec c 0); [lia | reflexivity].
Qed.

Lemma decode_cases (h : Z) :
  0 <= h < 2 ^ 32 ->
  ((Spec.bitrateKbps h = 0 \/ Spec.sampleRateHz h = 0) /\ Spec.decode h = 0)
  \/ (Spec.bitrateKbps h <> 0 /\ Spec.sampleRateHz h <> 0
      /\ Spec.decode h
         = 144 * Spec.bitrateKbps h * 1000 / Spec.sampleRateHz h
           + Spec.padding h
      /\ 96 <= Spec.decode h <= 1441).
Proof.
  intros Hh.
  destruct (decode_by_index (Spec.bitrateIndex h) (Spec.sampleRateIndex h)
              (Spec.padding h)) as [_ Hbounds];
    [apply bitrateIndex_range | apply sampleRateIndex_range
     | apply padding_range |].
  unfold Spec.decode. fold (Spec.bitrateKbps h) (Spec.sampleRateHz h) in Hbounds.
  cbv zeta in Hbounds.
  destruct (Z.eqb_spec (Spec.bitrateKbps h) 0) as [Hk | Hk];
    destruct (Z.eqb_spec (Spec.sampleRateHz h) 0) as [Hs | Hs]; simpl in *;
    try (left; split; [tauto | reflexivity]).
  right. repeat split; try assumption; apply Hbounds; reflexivity.
Qed.

(** * The claims *)

(** C2.  For every 32-bit header value [h] (each is the big-endian reading of
    some four bytes), [getFrameSize], in both classes, answers 0 exactly when
    the bitrate index [(h >> 12) & 0xF] is 0 or 15 or the sample-rate index
    [(h >> 10) & 0x3] is 3, which are the table entries 0; otherwise it
    answers [floor(144 * bitrateKbps * 1000 / sampleRateHz) + padding] with
    [padding = (h >> 9) & 0x1], and that is at least 1. *)
Theorem C2_getFrameSize_decodes_header (h : Z) :
  0 <= h < 2 ^ 32 ->
  (exists buffer : list byte, Buffer.readUInt32BE buffer 0 = Some h)
  /\ forall (buffer : list byte) (offset : Z),
       Buffer.readUInt32BE buffer offset = Some h ->
       let size := StreamingMp3Parser.getFrameSize buffer offset in
       Mp3Parser.getFrameSize buffer offset = size
       /\ (size = 0
           <-> Spec.bitrateIndex h = 0 \/ Spec.bitrateIndex h = 15
               \/ Spec.sampleRateIndex h = 3)
       /\ (size = 0 <-> Spec.bitrateKbps h = 0 \/ Spec.sampleRateHz h = 0)
       /\ (size <> 0 ->
           size = 144 * Spec.bitrateKbps h * 1000 / Spec.sampleRateHz h
                  + Spec.padding h
           /\ 1 <= size).
Proof.
  intros Hh. split.
  - destruct (readUInt32BE_onto h Hh) as (buffer & _ & Hread).
    exists buffer. exact Hread.
  - intros buffer offset Hread size. subst size.
    rewrite (getFrameSize_header _ _ _ Hread).
    split; [rewrite Mp3Parser_getFrameSize; apply getFrameSize_header, Hread|].
    split; [apply decode_zero_iff, Hh|].
    destruct (decode_cases h Hh) as [[Hzero ->] | (Hk & Hs & -> & Hbounds)].
    + split; [tauto | intros Hne; congruence].
    + set (size := 144 * Spec.bitrateKbps h * 1000 / Spec.sampleRateHz h
                   + Spec.padding h) in *.
      split; [|intros Hne; split; [reflexivity | lia]].
      split; [intros H0; lia | intros [Hk' | Hs']; contradiction].
Qed.

(** C2 at the header 0xFF 0xFB 0x90 0x00. *)
Lemma C2_getFrameSize_decodes_header_witness :
  0 <= 0xFFFB9000 < 2 ^ 32
  /\ StreamingMp3Parser.getFrameSize header_128_44100 0
     = 144 * Spec.bitrateKbps 0xFFFB9000 * 1000 / Spec.sampleRateHz 0xFFFB9000
       + Spec.padding 0xFFFB9000.
Proof.
  assert (Hh : 0 <= 0xFFFB9000 < 2 ^ 32) by lia.
  split; [exact Hh|].
  destruct (C2_getFrameSize_decodes_header 0xFFFB9000 Hh) as [_ Hall].
  destruct (Hall header_128_44100 0 eq_refl) as (_ & _ & _ & Hsize).
  apply Hsize. vm_compute. discriminate.
Defined.

(** C7.  The header 0xFF 0xFB 0x90 0x00 is accepted with frame size
    [floor(144*128*1000/44100) + 0 = 417]; the 417 bytes made of this header
    and 413 zero bytes count as one frame and ten such frames as ten, in the
    whole-buffer scanner and, however the bytes are cut into chunks, in the
    streaming scanner. *)
Theorem C7_concrete_frames :
  Buffer.readUInt32BE header_128_44100 0 = Some 0xFFFB9000
  /\ StreamingMp3Parser.getFrameSize header_128_44100 0 = 417
  /\ Mp3Parser.getFrameSize header_128_44100 0 = 417
  /\ 144 * 128 * 1000 / 44100 + 0 = 417
  /\ Buffer.length frame_128_44100 = 417
  /\ Buffer.length (frames 10) = 4170
  /\ Mp3Parser.getFrameCount frame_128_44100 = Some (Returned 1)
  /\ Mp3Parser.getFrameCount (frames 10) = Some (Returned 10)
  /\ (forall chunks : list (list byte),
        concat chunks = frame_128_44100 ->
        StreamingMp3Parser.getFrameCount (StreamingMp3Parser.delivery chunks)
        = Some (Settled (Returned 1)))
  /\ (forall chunks : list (list byte),
        concat chunks = frames 10 ->
        StreamingMp3Parser.getFrameCount (StreamingMp3Parser.delivery chunks)
        = Some (Settled (Returned 10)))
  /\ StreamingMp3Parser.getFrameCount
       (StreamingMp3Parser.delivery [frames 10])
     = Some (Settled (Returned 10))
  /\ StreamingMp3Parser.getFrameCount
       (StreamingMp3Parser.delivery
          [take 1000 (frames 10); take 1000 (drop 1000 (frames 10));
           drop 2000 (frames 10)])
     = Some (Settled (Returned 10)).
Proof.
  assert (H1 : StreamingMp3Parser.scanLoop 417 frame_128_44100 0 0
               = Some (417, 1)) by (vm_compute; reflexivity).
  assert (H10 : StreamingMp3Parser.scanLoop 4170 (frames 10) 0 0
                = Some (4170, 10)) by (vm_compute; reflexivity).
  split; [vm_compute; reflexivity|].
  split; [vm_compute; reflexivity|].
  split; [vm_compute; reflexivity|].
  split; [reflexivity|].
  split; [vm_compute; reflexivity|].
  split; [vm_compute; reflexivity|].
  split; [vm_compute; reflexivity|].
  split; [vm_compute; reflexivity|].
  split; [intros chunks Hcat; apply (streaming_from_scan _ _ _ _ _ H1 Hcat)|].
  split; [intros chunks Hcat; apply (streaming_from_scan _ _ _ _ _ H10 Hcat)|].
  split; [apply (streaming_from_scan _ _ _ _ _ H10); apply app_nil_r|].
  apply (streaming_from_scan _ _ _ _ _ H10).
  vm_compute. reflexivity.
Qed.

(** C1.  The whole-buffer scanner and the streaming scanner disagree on five
    bytes, the header 0xFF 0xFB 0x90 0x00 and one more: [Mp3Parser] counts
    the frame the header announces, of which 412 bytes are missing, and
    [StreamingMp3Parser], whatever the chunks, finds no frame. *)
Theorem C1_cut_frame_counted_by_whole_buffer_only :
  Mp3Parser.getFrameCount (header_128_44100 ++ [x00]) = Some (Returned 1)
  /\ StreamingMp3Parser.getFrameCount
       (StreamingMp3Parser.delivery [header_128_44100 ++ [x00]])
     = Some (Settled (Thrown (InvalidMp3 "No valid MP3 frames found")))
  /\ forall chunks : list (list byte),
       concat chunks = header_128_44100 ++ [x00] ->
       StreamingMp3Parser.getFrameCount (StreamingMp3Parser.delivery chunks)
       = Some (Settled (Thrown (InvalidMp3 "No valid MP3 frames found"))).
Proof.
  assert (H : StreamingMp3Parser.scanLoop 5 (header_128_44100 ++ [x00]) 0 0
              = Some (0, 0)) by (vm_compute; reflexivity).
  split; [vm_compute; reflexivity|].
  split; [vm_compute; reflexivity|].
  intros chunks Hcat. apply (streaming_from_scan _ _ _ _ _ H Hcat).
Qed.

(** X1.  The result of the streaming scanner depends on the bytes only: two
    sequences of chunks (empty chunks allowed) with the same concatenation
    settle the promise in the same way. *)
Theorem X1_streaming_result_ignores_chunk_boundaries
    (chunks chunks' : list (list byte)) :
  concat chunks = concat chunks' ->
  StreamingMp3Parser.getFrameCount (StreamingMp3Parser.delivery chunks)
  = StreamingMp3Parser.getFrameCount (StreamingMp3Parser.delivery chunks').
Proof.
  intros Hsame. apply streaming_chunking_irrelevant. exact Hsame.
Qed.

(** X1 at two frames, in one chunk and cut in the middle of the first. *)
Lemma X1_streaming_result_ignores_chunk_boundaries_witness :
  StreamingMp3Parser.getFrameCount (StreamingMp3Parser.delivery [frames 2])
  = StreamingMp3Parser.getFrameCount
      (StreamingMp3Parser.delivery [take 200 (frames 2); drop 200 (frames 2)]).
Proof.
  apply (X1_streaming_result_ignores_chunk_boundaries
           [frames 2] [take 200 (frames 2); drop 200 (frames 2)]).
  vm_compute. reflexivity.
Defined.


(** C3.  A single valid frame (its first bytes match the sync pattern and
    the decoder gives its length), cut at any [k] with [1 <= k < L] and
    delivered as two chunks: after the first chunk nothing is counted and the
    [k] bytes are all kept pending; after the second chunk and the end of the
    stream the promise resolves with 1. *)
Theorem C3_frame_split_in_two (frame : list byte) (k : nat) :
  frame_sync frame 0 = true ->
  StreamingMp3Parser.getFrameSize frame 0 = Buffer.length frame ->
  (1 <= k < List.length frame)%nat ->
  StreamingMp3Parser.feed StreamingMp3Parser.initial [take k frame]
  = Some {| StreamingMp3Parser.frameCount := 0;
            StreamingMp3Parser.buffer := take k frame;
            StreamingMp3Parser.offset := 0 |}
  /\ StreamingMp3Parser.feed StreamingMp3Parser.initial
       [take k frame; drop k frame]
     = Some {| StreamingMp3Parser.frameCount := 1;
               StreamingMp3Parser.buffer := [];
               StreamingMp3Parser.offset := 0 |}
  /\ StreamingMp3Parser.getFrameCount
       (StreamingMp3Parser.delivery [take k frame; drop k frame])
     = Some (Settled (Returned 1)).
Proof.
  intros Hsync Hsize Hk.
  assert (HL : 96 <= Buffer.length frame).
  { destruct (getFrameSize_bounds frame 0) as [H0 | Hb];
      unfold Buffer.length in *; lia. }
  assert (Hlenk : Buffer.length (take k frame) = Z.of_nat k).
  { unfold Buffer.length. rewrite length_take. lia. }
  assert (Hfirst : exits StreamingMp3Parser.loopBody (concat [take k frame])
                     0 0 (0, 0)).
  { simpl. rewrite app_nil_r.
    destruct (Z_lt_le_dec 0 (Buffer.length (take k frame)
                             - MP3_CONSTANTS.MIN_HEADER_SIZE)) as [Hlt | Hge].
    - apply exits_break; [exact Hlt|].
      unfold MP3_CONSTANTS.MIN_HEADER_SIZE in Hlt.
      unfold StreamingMp3Parser.loopBody.
      rewrite <- (take_drop k frame) in Hsync, Hsize.
      rewrite frame_sync_app_l in Hsync by lia.
      rewrite getFrameSize_app_l in Hsize by lia.
      rewrite Hsync, Hsize, take_drop.
      destruct (Z.gtb_spec (Buffer.length frame) 0); [|lia].
      destruct (Z.leb_spec (0 + Buffer.length frame)
                  (Buffer.length (take k frame))); [|reflexivity].
      unfold Buffer.length in *. lia.
    - apply exits_guard. lia. }
  assert (Hboth : exits StreamingMp3Parser.loopBody
                    (concat [take k frame; drop k frame]) 0 0
                    (Buffer.length frame, 0 + 1)).
  { simpl. rewrite app_nil_r, take_drop.
    apply streaming_exits_last_frame; [exact Hsync | lia | lia]. }
  destruct (streaming_run _ _ _ Hfirst) as [Hfeed1 _].
  destruct (streaming_run _ _ _ Hboth) as [Hfeed2 Hget].
  split; [|split].
  - rewrite Hfeed1. simpl. rewrite app_nil_r. reflexivity.
  - rewrite Hfeed2. simpl concat. rewrite app_nil_r, take_drop.
    unfold Buffer.length. rewrite Nat2Z.id, drop_all. reflexivity.
  - rewrite Hget. reflexivity.
Qed.

(** C3 at the 417-byte frame cut after 100 bytes. *)
Lemma C3_frame_split_in_two_witness :
  StreamingMp3Parser.getFrameCount
    (StreamingMp3Parser.delivery
       [take 100 frame_128_44100; drop 100 frame_128_44100])
  = Some (Settled (Returned 1)).
Proof.
  apply (C3_frame_split_in_two frame_128_44100 100).
  - vm_compute. reflexivity.
  - vm_compute. reflexivity.
  - vm_compute. lia.
Defined.

(** C4.  [N] bytes, none of whose offsets passes the sync test (the last of
    them read together with the first byte of the frame), in front of exactly
    one complete valid frame: the cursor moves one byte at a time through the
    prefix without counting, the frame is counted at offset [N], and the
    result is 1, in the whole-buffer scanner and, for every cut into chunks,
    in the streaming scanner. *)
Theorem C4_resync_through_prefix (junk frame : list byte) :
  frame_sync frame 0 = true ->
  0 < StreamingMp3Parser.getFrameSize frame 0 ->
  StreamingMp3Parser.getFrameSize frame 0 = Buffer.length frame ->
  (forall i, 0 <= i < Buffer.length junk ->
             frame_sync (junk ++ frame) i = false) ->
  let input := junk ++ frame in
  let N := Buffer.length junk in
  (forall i c, 0 <= i < N ->
     Mp3Parser.loopBody input i c = Next (i + 1) c
     /\ StreamingMp3Parser.loopBody input i c = Next (i + 1) c)
  /\ Mp3Parser.loopBody input N 0 = Next (Buffer.length input) 1
  /\ StreamingMp3Parser.loopBody input N 0 = Next (Buffer.length input) 1
  /\ Mp3Parser.getFrameCount input = Some (Returned 1)
  /\ forall chunks : list (list byte),
       concat chunks = input ->
       StreamingMp3Parser.getFrameCount (StreamingMp3Parser.delivery chunks)
       = Some (Settled (Returned 1)).
Proof.
  intros Hsync Hpos Hsize Hjunk input N.
  assert (HL : 96 <= Buffer.length frame).
  { destruct (getFrameSize_bounds frame 0) as [H0 | Hb]; lia. }
  assert (Hlen : Buffer.length input = N + Buffer.length frame).
  { apply length_app. }
  assert (HN : 0 <= N) by apply length_nonneg.
  assert (HsyncN : frame_sync input N = true).
  { unfold input, N. rewrite <- (Z.add_0_r (Buffer.length junk)).
    rewrite frame_sync_app_r by lia. exact Hsync. }
  assert (HsizeN : StreamingMp3Parser.getFrameSize input N = Buffer.length frame).
  { unfold input, N. rewrite <- (Z.add_0_r (Buffer.length junk)).
    rewrite getFrameSize_app_r by lia. exact Hsize. }
  assert (Hstep : forall i c, 0 <= i < N ->
            Mp3Parser.loopBody input i c = Next (i + 1) c
            /\ StreamingMp3Parser.loopBody input i c = Next (i + 1) c).
  { intros i c Hi. unfold Mp3Parser.loopBody, StreamingMp3Parser.loopBody.
    unfold input. rewrite (Hjunk i Hi). split; reflexivity. }
  assert (HwN : exits Mp3Parser.loopBody input N 0 (Buffer.length input, 0 + 1)).
  { apply whole_exits_last_frame;
      [exact HsyncN | rewrite Mp3Parser_getFrameSize; lia
       | rewrite Mp3Parser_getFrameSize; lia]. }
  assert (HsN : exits StreamingMp3Parser.loopBody input N 0
                  (Buffer.length input, 0 + 1)).
  { apply streaming_exits_last_frame; [exact HsyncN | lia | lia]. }
  assert (Hw0 : exits Mp3Parser.loopBody input 0 0 (Buffer.length input, 1)).
  { apply (exits_skip _ _ _ _ (Z.to_nat N)).
    - intros i Hi. apply Hstep. lia.
    - unfold MP3_CONSTANTS.MIN_HEADER_SIZE. lia.
    - rewrite Z2Nat.id by lia. exact HwN. }
  assert (Hs0 : exits StreamingMp3Parser.loopBody input 0 0
                  (Buffer.length input, 1)).
  { apply (exits_skip _ _ _ _ (Z.to_nat N)).
    - intros i Hi. apply Hstep. lia.
    - unfold MP3_CONSTANTS.MIN_HEADER_SIZE. lia.
    - rewrite Z2Nat.id by lia. exact HsN. }
  split; [exact Hstep|].
  split.
  { unfold Mp3Parser.loopBody. rewrite HsyncN, Mp3Parser_getFrameSize, HsizeN.
    destruct (Z.gtb_spec (Buffer.length frame) 0); [|lia].
    rewrite Hlen. reflexivity. }
  split.
  { unfold StreamingMp3Parser.loopBody. rewrite HsyncN, HsizeN.
    destruct (Z.gtb_spec (Buffer.length frame) 0); [|lia].
    destruct (Z.leb_spec (N + Buffer.length frame) (Buffer.length input)); [|lia].
    rewrite Hlen. reflexivity. }
  split.
  { destruct (whole_getFrameCount input) as (g & c & Hex & ->).
    pose proof (exits_deterministic _ _ _ _ _ _ Hex Hw0) as [= -> ->].
    reflexivity. }
  intros chunks Hcat. rewrite <- Hcat in Hs0.
  destruct (streaming_run _ _ _ Hs0) as [_ ->]. reflexivity.
Qed.

(** C4 at six bytes 0x00 .. 0x05 in front of the 417-byte frame. *)
Lemma C4_resync_through_prefix_witness :
  Mp3Parser.getFrameCount ([x00; x01; x02; x03; x04; x05] ++ frame_128_44100)
  = Some (Returned 1).
Proof.
  refine (proj1 (proj2 (proj2 (proj2
            (C4_resync_through_prefix [x00; x01; x02; x03; x04; x05]
               frame_128_44100 _ _ _ _))))).
  - vm_compute. reflexivity.
  - vm_compute. reflexivity.
  - vm_compute. reflexivity.
  - intros i Hi. change (Buffer.length [x00; x01; x02; x03; x04; x05]) with 6 in Hi.
    assert (Hcases : i = 0 \/ i = 1 \/ i = 2 \/ i = 3 \/ i = 4 \/ i = 5) by lia.
    destruct Hcases as [-> | [-> | [-> | [-> | [-> | ->]]]]];
      vm_compute; reflexivity.
Defined.

Lemma whole_counter_monotone (buffer : list byte) (o c : Z) (r : Z * Z) :
  exits Mp3Parser.loopBody buffer o c r -> c <= r.2.
Proof.
  induction 1 as [o c Hg | o c Hlt Hb | o c o' c' r Hlt Hb H IH]; simpl; try lia.
  destruct (whole_body_cases buffer o c)
    as [[_ E] | [(_ & _ & E) | (_ & HL & E)]];
    rewrite E in Hb; injection Hb as <- <-; lia.
Qed.

(** C5.  With a file at the path, and a stream that reads it without
    failure, the outcome is exactly one of three: the file is empty and the
    constructor throws 'File is empty', before any stream is opened; the file
    is not empty, the scan accepts no frame and the promise rejects with 'No
    valid MP3 frames found'; or the promise resolves with the counter, which
    is positive.  The in-memory class has the same three outcomes. *)
Theorem C5_three_terminal_outcomes (fs : gmap string (list byte))
    (filePath : string) (content : list byte) (chunks : list (list byte)) :
  filePath <> EmptyString ->
  fs !! filePath = Some content ->
  concat chunks = content ->
  (exists (g c : Z) (o : outcome Z),
     exits StreamingMp3Parser.loopBody content 0 0 (g, c)
     /\ StreamingMp3Parser.construct_and_count fs filePath
          (StreamingMp3Parser.delivery chunks)
        = Some (Settled o)
     /\ three_outcomes content c o)
  /\ (exists (g c : Z) (o : outcome Z),
        exits Mp3Parser.loopBody content 0 0 (g, c)
        /\ Mp3Parser.construct_and_count (Some content) = Some o
        /\ three_outcomes content c o).
Proof.
  intros Hpath Hfile Hcat.
  assert (Hctor : StreamingMp3Parser.constructor fs filePath
                  = if Buffer.length content =? 0
                    then Thrown (InvalidMp3 "File is empty")
                    else Returned filePath).
  { unfold StreamingMp3Parser.constructor.
    apply String.eqb_neq in Hpath. rewrite Hpath, Hfile. reflexivity. }
  assert (Hempty : Buffer.length content = 0 <-> content = []).
  { unfold Buffer.length. destruct content; simpl; split; intros H;
      try reflexivity; try discriminate; lia. }
  assert (Hthree : forall c, 0 <= c -> Buffer.length content <> 0 ->
            three_outcomes content c (verdict c)).
  { intros c Hc Hne.
    assert (Hcontent : content <> []) by (intros E; apply Hne, Hempty, E).
    unfold three_outcomes, verdict. right.
    destruct (Z.eqb_spec c 0) as [-> | Hc0].
    - left. split; [exact Hcontent|]. split; reflexivity.
    - right. split; [exact Hcontent|]. split; [lia | reflexivity]. }
  split.
  - destruct (streaming_getFrameCount chunks) as (g & c & Hex & Hc & _ & Hget).
    rewrite Hcat in Hex. exists g, c.
    unfold StreamingMp3Parser.construct_and_count. rewrite Hctor, Hget.
    destruct (Z.eqb_spec (Buffer.length content) 0) as [H0 | Hne].
    + eexists. split; [exact Hex|]. split; [reflexivity|].
      left. split; [apply Hempty, H0 | reflexivity].
    + eexists. split; [exact Hex|]. split; [reflexivity|].
      apply Hthree; assumption.
  - destruct (whole_getFrameCount content) as (g & c & Hex & Hget).
    exists g, c.
    pose proof (whole_counter_monotone _ _ _ _ Hex) as Hc. simpl in Hc.
    unfold Mp3Parser.construct_and_count, Mp3Parser.constructor.
    destruct (Z.eqb_spec (Buffer.length content) 0) as [H0 | Hne].
    + eexists. split; [exact Hex|]. split; [reflexivity|].
      left. split; [apply Hempty, H0 | reflexivity].
    + eexists. split; [exact Hex|]. split; [exact Hget|].
      apply Hthree; assumption.
Qed.

(** C5 at a file that holds the 417-byte frame, read in two chunks. *)
Lemma C5_three_terminal_outcomes_witness :
  exists (g c : Z) (o : outcome Z),
    exits StreamingMp3Parser.loopBody frame_128_44100 0 0 (g, c)
    /\ StreamingMp3Parser.construct_and_count
         {[ "upload.mp3" := frame_128_44100 ]} "upload.mp3"
         (StreamingMp3Parser.delivery
            [take 100 frame_128_44100; drop 100 frame_128_44100])
       = Some (Settled o)
    /\ three_outcomes frame_128_44100 c o.
Proof.
  apply (C5_three_terminal_outcomes
           {[ "upload.mp3" := frame_128_44100 ]} "upload.mp3" frame_128_44100
           [take 100 frame_128_44100; drop 100 frame_128_44100]).
  - discriminate.
  - apply lookup_singleton_eq.
  - vm_compute. reflexivity.
Defined.

(** C6.  At a cursor whose two bytes match the sync pattern and whose header
    the decoder rejects, one pass of either loop moves the cursor by exactly
    one byte and counts nothing; a frame that starts at the next byte is then
    counted by the next pass. *)
Theorem C6_rejected_sync_moves_one_byte (buffer : list byte) (o c : Z) :
  frame_sync buffer o = true ->
  StreamingMp3Parser.getFrameSize buffer o = 0 ->
  StreamingMp3Parser.loopBody buffer o c = Next (o + 1) c
  /\ Mp3Parser.loopBody buffer o c = Next (o + 1) c
  /\ forall fuel : nat,
       let L := StreamingMp3Parser.getFrameSize buffer (o + 1) in
       o + 1 < Buffer.length buffer - MP3_CONSTANTS.MIN_HEADER_SIZE ->
       frame_sync buffer (o + 1) = true ->
       0 < L ->
       Mp3Parser.scanLoop (S (S fuel)) buffer o c
       = Mp3Parser.scanLoop fuel buffer (o + 1 + L) (c + 1)
       /\ (o + 1 + L <= Buffer.length buffer ->
           StreamingMp3Parser.scanLoop (S (S fuel)) buffer o c
           = StreamingMp3Parser.scanLoop fuel buffer (o + 1 + L) (c + 1)).
Proof.
  intros Hsync Hrej.
  assert (Hs : StreamingMp3Parser.loopBody buffer o c = Next (o + 1) c).
  { unfold StreamingMp3Parser.loopBody. rewrite Hsync, Hrej. reflexivity. }
  assert (Hw : Mp3Parser.loopBody buffer o c = Next (o + 1) c).
  { unfold Mp3Parser.loopBody.
    rewrite Hsync, Mp3Parser_getFrameSize, Hrej. reflexivity. }
  split; [exact Hs|]. split; [exact Hw|].
  intros fuel L Hroom Hsync1 HL.
  assert (Hcond : (o <? Buffer.length buffer - MP3_CONSTANTS.MIN_HEADER_SIZE)
                  = true) by (apply Z.ltb_lt; lia).
  assert (Hcond1 : (o + 1 <? Buffer.length buffer - MP3_CONSTANTS.MIN_HEADER_SIZE)
                   = true) by (apply Z.ltb_lt; lia).
  assert (HLpos : (L >? 0) = true) by (apply Z.gtb_lt; lia).
  split.
  - unfold Mp3Parser.scanLoop. simpl scan_while at 1.
    rewrite Hcond, Hw, Hcond1.
    unfold Mp3Parser.loopBody at 1.
    rewrite Hsync1, Mp3Parser_getFrameSize. fold L. rewrite HLpos. reflexivity.
  - intros Hfit.
    unfold StreamingMp3Parser.scanLoop. simpl scan_while at 1.
    rewrite Hcond, Hs, Hcond1.
    unfold StreamingMp3Parser.loopBody at 1.
    rewrite Hsync1. fold L. rewrite HLpos.
    destruct (Z.leb_spec (o + 1 + L) (Buffer.length buffer)); [reflexivity | lia].
Qed.

(** C6 at 0xFF in front of the 417-byte frame: the bytes 0xFF 0xFF match the
    sync pattern, the header 0xFF 0xFF 0xFB 0x90 has bitrate index 15. *)
Lemma C6_rejected_sync_moves_one_byte_witness :
  StreamingMp3Parser.loopBody false_sync_then_frame 0 0 = Next (0 + 1) 0
  /\ Mp3Parser.loopBody false_sync_then_frame 0 0 = Next (0 + 1) 0
  /\ Mp3Parser.getFrameCount false_sync_then_frame = Some (Returned 1)
  /\ StreamingMp3Parser.getFrameCount
       (StreamingMp3Parser.delivery [false_sync_then_frame])
     = Some (Settled (Returned 1)).
Proof.
  assert (Hsync : frame_sync false_sync_then_frame 0 = true)
    by (vm_compute; reflexivity).
  assert (Hrej : StreamingMp3Parser.getFrameSize false_sync_then_frame 0 = 0)
    by (vm_compute; reflexivity).
  destruct (C6_rejected_sync_moves_one_byte false_sync_then_frame 0 0 Hsync Hrej)
    as (Hs & Hw & _).
  split; [exact Hs|]. split; [exact Hw|].
  split; vm_compute; reflexivity.
Defined.

(** C8, as the code has it.  A pass of either loop runs the body, which
    starts with the sync test, at every cursor with more than four bytes
    ahead ([cursor + 4 < length]); with four bytes or fewer ahead the loop
    ends there.  The streaming loop ends nowhere else but where it suspends
    in front of an accepted frame that reaches past the buffer; the
    whole-buffer loop ends nowhere else at all. *)
Theorem C8_scan_runs_while_more_than_four_bytes_ahead
    (buffer : list byte) (o c : Z) (fuel : nat) :
  (o + 4 < Buffer.length buffer ->
   StreamingMp3Parser.scanLoop (S fuel) buffer o c
   = match StreamingMp3Parser.loopBody buffer o c with
     | Next o' c' => StreamingMp3Parser.scanLoop fuel buffer o' c'
     | Break => Some (o, c)
     end
   /\ Mp3Parser.scanLoop (S fuel) buffer o c
      = match Mp3Parser.loopBody buffer o c with
        | Next o' c' => Mp3Parser.scanLoop fuel buffer o' c'
        | Break => Some (o, c)
        end)
  /\ (Buffer.length buffer <= o + 4 ->
      StreamingMp3Parser.scanLoop fuel buffer o c = Some (o, c)
      /\ Mp3Parser.scanLoop fuel buffer o c = Some (o, c))
  /\ (forall r : Z * Z,
        StreamingMp3Parser.scanLoop fuel buffer o c = Some r ->
        Buffer.length buffer <= r.1 + 4
        \/ (r.1 + 4 < Buffer.length buffer
            /\ frame_sync buffer r.1 = true
            /\ 0 < StreamingMp3Parser.getFrameSize buffer r.1
            /\ Buffer.length buffer
               < r.1 + StreamingMp3Parser.getFrameSize buffer r.1))
  /\ (forall r : Z * Z,
        Mp3Parser.scanLoop fuel buffer o c = Some r ->
        Buffer.length buffer <= r.1 + 4).
Proof.
  unfold StreamingMp3Parser.scanLoop, Mp3Parser.scanLoop.
  split; [|split; [|split]].
  - intros Hroom. simpl.
    destruct (Z.ltb_spec o (Buffer.length buffer - MP3_CONSTANTS.MIN_HEADER_SIZE));
      [split; reflexivity | unfold MP3_CONSTANTS.MIN_HEADER_SIZE in *; lia].
  - intros Hend.
    assert (Hcond : (o <? Buffer.length buffer - MP3_CONSTANTS.MIN_HEADER_SIZE)
                    = false).
    { apply Z.ltb_ge. unfold MP3_CONSTANTS.MIN_HEADER_SIZE. lia. }
    destruct fuel; simpl; rewrite Hcond; split; reflexivity.
  - intros r Hr. apply scan_while_exits in Hr.
    destruct (streaming_exits_stop _ _ _ _ Hr) as [Hend | [Hlt Hbreak]];
      unfold MP3_CONSTANTS.MIN_HEADER_SIZE in *; [left; lia|].
    right. split; [lia|].
    destruct (streaming_body_cases buffer r.1 r.2)
      as [[_ E] | [(_ & _ & E) | [(_ & _ & _ & E) | (Hs & HL & Hcut & _)]]];
      try (rewrite E in Hbreak; discriminate).
    repeat split; [exact Hs | lia | exact Hcut].
  - intros r Hr. apply scan_while_exits in Hr.
    assert (Hstop : forall o c r, exits Mp3Parser.loopBody buffer o c r ->
              Buffer.length buffer - MP3_CONSTANTS.MIN_HEADER_SIZE <= r.1).
    { clear. intros o c r H.
      induction H as [o c Hg | o c Hlt Hb | o c o' c' r Hlt Hb H IH]; simpl;
        [lia | exfalso; eapply whole_body_never_breaks, Hb | exact IH]. }
    apply Hstop in Hr. unfold MP3_CONSTANTS.MIN_HEADER_SIZE in Hr. lia.
Qed.

(** C8, as stated, fails on four bytes.  With exactly four bytes ahead of
    the cursor ([cursor + 4 <= length]) neither loop makes a pass: on four
    zero bytes the body, had it run, would have stepped to cursor 1 and not
    suspended; on the four bytes of a header that matches the sync pattern
    and that the decoder accepts, the whole-buffer scanner never tests the
    sync pattern and reports that there is no frame. *)
Lemma C8_no_pass_with_exactly_four_bytes :
  let zeros := [x00; x00; x00; x00] in
  0 + 4 <= Buffer.length zeros
  /\ StreamingMp3Parser.loopBody zeros 0 0 = Next 1 0
  /\ Mp3Parser.loopBody zeros 0 0 = Next 1 0
  /\ (forall fuel, StreamingMp3Parser.scanLoop fuel zeros 0 0 = Some (0, 0))
  /\ (forall fuel, Mp3Parser.scanLoop fuel zeros 0 0 = Some (0, 0))
  /\ 0 + 4 <= Buffer.length header_128_44100
  /\ frame_sync header_128_44100 0 = true
  /\ Mp3Parser.getFrameSize header_128_44100 0 = 417
  /\ Mp3Parser.loopBody header_128_44100 0 0 = Next 417 1
  /\ (forall fuel, Mp3Parser.scanLoop fuel header_128_44100 0 0 = Some (0, 0))
  /\ Mp3Parser.getFrameCount header_128_44100
     = Some (Thrown (InvalidMp3 "No valid MP3 frames found")).
Proof.
  cbv zeta.
  split; [vm_compute; discriminate|].
  split; [vm_compute; reflexivity|].
  split; [vm_compute; reflexivity|].
  split; [intros [|fuel]; reflexivity|].
  split; [intros [|fuel]; reflexivity|].
  split; [vm_compute; discriminate|].
  split; [vm_compute; reflexivity|].
  split; [vm_compute; reflexivity|].
  split; [vm_compute; reflexivity|].
  split; [intros [|fuel]; reflexivity|].
  vm_compute. reflexivity.
Qed.

(** C9.  For every sequence of chunks the data handler returns, and the
    pending buffer it leaves is no longer than the longest frame the decoder
    accepts, 1441 bytes (320 kbps at 32000 Hz with padding); so the buffer a
    further chunk is appended to is never longer than that chunk plus 1441
    bytes, whatever the length of the input so far. *)
Theorem C9_pending_buffer_is_bounded (chunks : list (list byte)) :
  exists st : StreamingMp3Parser.state,
    StreamingMp3Parser.feed StreamingMp3Parser.initial chunks = Some st
    /\ StreamingMp3Parser.offset st = 0
    /\ Buffer.length (StreamingMp3Parser.buffer st) <= 1441
    /\ (forall chunk : list byte,
          Buffer.length (Buffer.concat2 (StreamingMp3Parser.buffer st) chunk)
          <= Buffer.length chunk + 1441)
    /\ (forall (buffer : list byte) (o : Z),
          StreamingMp3Parser.getFrameSize buffer o <= 1441)
    /\ StreamingMp3Parser.getFrameSize header_320_32000_padded 0 = 1441.
Proof.
  destruct (streaming_getFrameCount chunks) as (g & c & Hex & Hc & Hfeed & _).
  eexists. split; [exact Hfeed|]. simpl.
  destruct (streaming_exits_in_buffer _ _ _ _ Hex) as [Hg _];
    [apply length_nonneg|]. simpl in Hg.
  assert (Hpending : Buffer.length (drop (Z.to_nat g) (concat chunks)) <= 1441).
  { assert (Hlen : Buffer.length (drop (Z.to_nat g) (concat chunks))
                   = Buffer.length (concat chunks) - g).
    { unfold Buffer.length in *. rewrite length_drop. lia. }
    rewrite Hlen.
    destruct (streaming_exits_stop _ _ _ _ Hex) as [Hend | [Hlt Hbreak]];
      simpl in *; unfold MP3_CONSTANTS.MIN_HEADER_SIZE in *; [lia|].
    destruct (streaming_body_cases (concat chunks) g c)
      as [[_ E] | [(_ & _ & E) | [(_ & _ & _ & E) | (_ & HL & Hcut & _)]]];
      try (rewrite E in Hbreak; discriminate).
    lia. }
  split; [reflexivity|]. split; [exact Hpending|].
  split; [|split].
  - intros chunk. unfold Buffer.concat2. rewrite length_app. lia.
  - intros buffer o. destruct (getFrameSize_bounds buffer o); lia.
  - vm_compute. reflexivity.
Qed.

(** C10.  Every pass of either loop moves the cursor forward: by one byte,
    counting nothing, where the sync test fails or the decoder rejects, and by
    the frame size, counting one, where the decoder accepts, which it does
    only with a positive size.  So the bytes ahead of the cursor decrease,
    the passes form a well-founded relation, each loop returns with the fuel
    the length of its buffer provides, and what it returns is the value of
    the loop defined by well-founded recursion on the bytes ahead of the
    cursor: [getFrameCount] is total on every buffer and on every sequence
    of chunks. *)
Theorem C10_scan_terminates (buffer : list byte) (o c : Z) :
  (forall o' c',
     StreamingMp3Parser.loopBody buffer o c = Next o' c' ->
     let L := StreamingMp3Parser.getFrameSize buffer o in
     (o' = o + 1 /\ c' = c /\ (frame_sync buffer o = false \/ L = 0))
     \/ (o' = o + L /\ c' = c + 1 /\ frame_sync buffer o = true /\ 0 < L))
  /\ (forall o' c',
        Mp3Parser.loopBody buffer o c = Next o' c' ->
        let L := Mp3Parser.getFrameSize buffer o in
        (o' = o + 1 /\ c' = c /\ (frame_sync buffer o = false \/ L = 0))
        \/ (o' = o + L /\ c' = c + 1 /\ frame_sync buffer o = true /\ 0 < L))
  /\ (forall s' s, pass StreamingMp3Parser.loopBody buffer s' s ->
        (Z.to_nat (Buffer.length buffer - s'.1)
         < Z.to_nat (Buffer.length buffer - s.1))%nat)
  /\ (forall s' s, pass Mp3Parser.loopBody buffer s' s ->
        (Z.to_nat (Buffer.length buffer - s'.1)
         < Z.to_nat (Buffer.length buffer - s.1))%nat)
  /\ well_founded (pass StreamingMp3Parser.loopBody buffer)
  /\ well_founded (pass Mp3Parser.loopBody buffer)
  /\ (forall fuel : nat,
        Buffer.length buffer - MP3_CONSTANTS.MIN_HEADER_SIZE - o <= Z.of_nat fuel ->
        is_Some (StreamingMp3Parser.scanLoop fuel buffer o c)
        /\ is_Some (Mp3Parser.scanLoop fuel buffer o c))
  /\ (forall advances (fuel : nat),
        Buffer.length buffer - MP3_CONSTANTS.MIN_HEADER_SIZE - o <= Z.of_nat fuel ->
        StreamingMp3Parser.scanLoop fuel buffer o c
        = Some (scan_wf StreamingMp3Parser.loopBody advances buffer o c))
  /\ (forall advances (fuel : nat),
        Buffer.length buffer - MP3_CONSTANTS.MIN_HEADER_SIZE - o <= Z.of_nat fuel ->
        Mp3Parser.scanLoop fuel buffer o c
        = Some (scan_wf Mp3Parser.loopBody advances buffer o c))
  /\ is_Some (Mp3Parser.getFrameCount buffer)
  /\ (forall chunks : list (list byte),
        is_Some (StreamingMp3Parser.feed StreamingMp3Parser.initial chunks)
        /\ exists result : outcome Z,
             StreamingMp3Parser.getFrameCount
               (StreamingMp3Parser.delivery chunks)
             = Some (Settled result)).
Proof.
  assert (Hmeasure : forall body,
            (forall buffer o c o' c', body buffer o c = Next o' c' -> o < o') ->
            forall s' s, pass body buffer s' s ->
              (Z.to_nat (Buffer.length buffer - s'.1)
               < Z.to_nat (Buffer.length buffer - s.1))%nat).
  { intros body Hadv s' s [Hlt Hb]. apply Hadv in Hb.
    unfold MP3_CONSTANTS.MIN_HEADER_SIZE in Hlt. lia. }
  split; [|split; [|split; [|split; [|split; [|split; [|split; [|split;
    [|split; [|split]]]]]]]]].
  - intros o' c' Hb L.
    destruct (streaming_body_cases buffer o c)
      as [[Hs E] | [(Hs & H0 & E) | [(Hs & HL & _ & E) | (_ & _ & _ & E)]]];
      rewrite E in Hb; try discriminate; injection Hb as <- <-; subst L.
    + left. tauto.
    + left. tauto.
    + right. repeat split; [exact Hs | lia].
  - intros o' c' Hb L.
    destruct (whole_body_cases buffer o c)
      as [[Hs E] | [(Hs & H0 & E) | (Hs & HL & E)]];
      rewrite E in Hb; injection Hb as <- <-; subst L.
    + left. tauto.
    + left. tauto.
    + right. repeat split; [exact Hs | lia].
  - apply Hmeasure, streaming_body_advances.
  - apply Hmeasure, whole_body_advances.
  - apply pass_well_founded, streaming_body_advances.
  - apply pass_well_founded, whole_body_advances.
  - intros fuel Hfuel. split.
    + apply scan_while_enough; [apply streaming_body_advances | exact Hfuel].
    + apply scan_while_enough; [apply whole_body_advances | exact Hfuel].
  - intros advances fuel Hfuel. apply scan_while_scan_wf, Hfuel.
  - intros advances fuel Hfuel. apply scan_while_scan_wf, Hfuel.
  - destruct (whole_getFrameCount buffer) as (g & n & _ & ->). eexists. reflexivity.
  - intros chunks.
    destruct (streaming_getFrameCount chunks) as (g & n & _ & _ & -> & ->).
    split; eexists; reflexivity.
Qed.

(** * Further properties *)

(** ** What the two loop bodies have in common *)

Lemma whole_body_app (buffer more : list byte) (o c : Z) :
  o < Buffer.length buffer - MP3_CONSTANTS.MIN_HEADER_SIZE ->
  Mp3Parser.loopBody (buffer ++ more) o c = Mp3Parser.loopBody buffer o c.
Proof.
  unfold MP3_CONSTANTS.MIN_HEADER_SIZE. intros Hlt.
  unfold Mp3Parser.loopBody.
  change Mp3Parser.getFrameSize with StreamingMp3Parser.getFrameSize.
  rewrite frame_sync_app_l, getFrameSize_app_l by lia.
  reflexivity.
Qed.

Lemma whole_body_drop (buffer : list byte) (n : nat) (o c : Z) :
  0 <= o -> Z.of_nat n <= Buffer.length buffer ->
  Mp3Parser.loopBody (drop n buffer) o c
  = match Mp3Parser.loopBody buffer (o + Z.of_nat n) c with
    | Next o' c' => Next (o' - Z.of_nat n) c'
    | Break => Break
    end.
Proof.
  intros Ho Hn. unfold Mp3Parser.loopBody.
  change Mp3Parser.getFrameSize with StreamingMp3Parser.getFrameSize.
  rewrite frame_sync_drop, getFrameSize_drop by assumption. cbv zeta.
  destruct (frame_sync buffer (o + Z.of_nat n)); [|f_equal; lia].
  destruct (_ >? 0); f_equal; lia.
Qed.

Lemma streaming_body_counter (buffer : list byte) (o c k : Z) :
  StreamingMp3Parser.loopBody buffer o (c + k)
  = match StreamingMp3Parser.loopBody buffer o c with
    | Next o' c' => Next o' (c' + k)
    | Break => Break
    end.
Proof.
  unfold StreamingMp3Parser.loopBody.
  destruct (frame_sync buffer o); [|reflexivity].
  destruct (_ >? 0); [|reflexivity].
  destruct (_ <=? _); [f_equal; lia | reflexivity].
Qed.

Lemma whole_body_counter (buffer : list byte) (o c k : Z) :
  Mp3Parser.loopBody buffer o (c + k)
  = match Mp3Parser.loopBody buffer o c with
    | Next o' c' => Next o' (c' + k)
    | Break => Break
    end.
Proof.
  unfold Mp3Parser.loopBody.
  destruct (frame_sync buffer o); [|reflexivity].
  destruct (_ >? 0); [f_equal; lia | reflexivity].
Qed.

Lemma streaming_body_accepts (buffer : list byte) (o c : Z) :
  frame_sync buffer o = true ->
  0 < StreamingMp3Parser.getFrameSize buffer o ->
  o + StreamingMp3Parser.getFrameSize buffer o <= Buffer.length buffer ->
  StreamingMp3Parser.loopBody buffer o c
  = Next (o + StreamingMp3Parser.getFrameSize buffer o) (c + 1).
Proof.
  intros Hs HL Hfit. unfold StreamingMp3Parser.loopBody. rewrite Hs.
  destruct (Z.gtb_spec (StreamingMp3Parser.getFrameSize buffer o) 0); [|lia].
  destruct (Z.leb_spec (o + StreamingMp3Parser.getFrameSize buffer o)
              (Buffer.length buffer)); [reflexivity | lia].
Qed.

Lemma whole_body_accepts (buffer : list byte) (o c : Z) :
  frame_sync buffer o = true ->
  0 < StreamingMp3Parser.getFrameSize buffer o ->
  o + StreamingMp3Parser.getFrameSize buffer o <= Buffer.length buffer ->
  Mp3Parser.loopBody buffer o c
  = Next (o + StreamingMp3Parser.getFrameSize buffer o) (c + 1).
Proof.
  intros Hs HL _. unfold Mp3Parser.loopBody.
  change Mp3Parser.getFrameSize with StreamingMp3Parser.getFrameSize.
  rewrite Hs.
  destruct (Z.gtb_spec (StreamingMp3Parser.getFrameSize buffer o) 0);
    [reflexivity | lia].
Qed.

Lemma streaming_body_rejects (buffer : list byte) (o c : Z) :
  frame_sync buffer o = false \/ StreamingMp3Parser.getFrameSize buffer o = 0 ->
  StreamingMp3Parser.loopBody buffer o c = Next (o + 1) c.
Proof.
  unfold StreamingMp3Parser.loopBody. intros [-> | H0]; [reflexivity|].
  rewrite H0. destruct (frame_sync buffer o); reflexivity.
Qed.

Lemma whole_body_rejects (buffer : list byte) (o c : Z) :
  frame_sync buffer o = false \/ StreamingMp3Parser.getFrameSize buffer o = 0 ->
  Mp3Parser.loopBody buffer o c = Next (o + 1) c.
Proof.
  unfold Mp3Parser.loopBody.
  change Mp3Parser.getFrameSize with StreamingMp3Parser.getFrameSize.
  intros [-> | H0]; [reflexivity|].
  rewrite H0. destruct (frame_sync buffer o); reflexivity.
Qed.

(** ** Either loop on a buffer put together from parts *)

Section Parts.

Variable body : list byte -> Z -> Z -> iteration.

Hypothesis body_advances :
  forall buffer o c o' c', body buffer o c = Next o' c' -> o < o'.

Hypothesis body_app :
  forall buffer more o c o' c',
    o < Buffer.length buffer - MP3_CONSTANTS.MIN_HEADER_SIZE ->
    body buffer o c = Next o' c' ->
    body (buffer ++ more) o c = Next o' c'.

Hypothesis body_drop :
  forall buffer (n : nat) o c,
    0 <= o -> Z.of_nat n <= Buffer.length buffer ->
    body (drop n buffer) o c
    = match body buffer (o + Z.of_nat n) c with
      | Next o' c' => Next (o' - Z.of_nat n) c'
      | Break => Break
      end.

Hypothesis body_counter :
  forall buffer o c k,
    body buffer o (c + k)
    = match body buffer o c with
      | Next o' c' => Next o' (c' + k)
      | Break => Break
      end.

Hypothesis body_accepts :
  forall buffer o c,
    frame_sync buffer o = true ->
    0 < StreamingMp3Parser.getFrameSize buffer o ->
    o + StreamingMp3Parser.getFrameSize buffer o <= Buffer.length buffer ->
    body buffer o c
    = Next (o + StreamingMp3Parser.getFrameSize buffer o) (c + 1).

Hypothesis body_rejects :
  forall buffer o c,
    frame_sync buffer o = false
    \/ StreamingMp3Parser.getFrameSize buffer o = 0 ->
    body buffer o c = Next (o + 1) c.

Hypothesis body_counts_up :
  forall buffer o c o' c', body buffer o c = Next o' c' -> c <= c'.

Lemma exits_app (buffer more : list byte) (o c : Z) (mid final : Z * Z) :
  exits body buffer o c mid ->
  exits body (buffer ++ more) mid.1 mid.2 final ->
  exits body (buffer ++ more) o c final.
Proof.
  induction 1 as [o c Hg | o c Hlt Hb | o c o' c' mid Hlt Hb H IH]; simpl;
    try tauto.
  intros Hfinal. eapply exits_next.
  - rewrite length_app. pose proof (length_nonneg more). lia.
  - apply body_app; eassumption.
  - apply IH, Hfinal.
Qed.

Lemma exits_after (before rest : list byte) (o c : Z) (r : Z * Z) :
  0 <= o ->
  exits body rest o c r ->
  exits body (before ++ rest) (o + Buffer.length before) c
    (r.1 + Buffer.length before, r.2).
Proof.
  intros Ho H.
  set (n := List.length before).
  assert (Hcut : drop n (before ++ rest) = rest) by apply drop_app_length.
  assert (Hn : Z.of_nat n <= Buffer.length (before ++ rest)).
  { rewrite length_app. pose proof (length_nonneg rest).
    unfold Buffer.length, n in *. lia. }
  assert (Hlen : Buffer.length (before ++ rest)
                 = Buffer.length rest + Z.of_nat n).
  { rewrite length_app. unfold Buffer.length, n. lia. }
  change (Buffer.length before) with (Z.of_nat n).
  revert Ho.
  induction H as [o c Hg | o c Hlt Hb | o c o' c' r Hlt Hb H IH]; simpl;
    intros Ho.
  - apply exits_guard. lia.
  - apply exits_break; [lia|].
    rewrite <- Hcut in Hb. rewrite body_drop in Hb by assumption.
    destruct (body (before ++ rest) (o + Z.of_nat n) c);
      [discriminate | reflexivity].
  - pose proof (body_advances _ _ _ _ _ Hb) as Hadv.
    rewrite <- Hcut in Hb. rewrite body_drop in Hb by assumption.
    destruct (body (before ++ rest) (o + Z.of_nat n) c) as [o1 c1|] eqn:Hb1;
      [|discriminate].
    injection Hb as <- <-.
    eapply exits_next; [lia | exact Hb1 |].
    replace o1 with (o1 - Z.of_nat n + Z.of_nat n) at 1 by lia.
    apply IH. lia.
Qed.

Lemma exits_counter (buffer : list byte) (o c k : Z) (r : Z * Z) :
  exits body buffer o c r -> exits body buffer o (c + k) (r.1, r.2 + k).
Proof.
  induction 1 as [o c Hg | o c Hlt Hb | o c o' c' r Hlt Hb H IH]; simpl.
  - apply exits_guard. exact Hg.
  - apply exits_break; [exact Hlt|]. rewrite body_counter, Hb. reflexivity.
  - eapply exits_next; [exact Hlt | | exact IH].
    rewrite body_counter, Hb. reflexivity.
Qed.

Lemma exits_counts_up (buffer : list byte) (o c : Z) (r : Z * Z) :
  exits body buffer o c r -> c <= r.2.
Proof.
  induction 1 as [o c Hg | o c Hlt Hb | o c o' c' r Hlt Hb H IH]; simpl;
    try lia.
  apply body_counts_up in Hb. lia.
Qed.

(** The counter after more bytes is at least the counter before them. *)
Lemma exits_grows (buffer more : list byte) (r r' : Z * Z) :
  exits body buffer 0 0 r ->
  exits body (buffer ++ more) 0 0 r' ->
  r.2 <= r'.2.
Proof.
  intros H H'.
  destruct (exits_total body body_advances (buffer ++ more) r.1 r.2)
    as [final Hfinal].
  pose proof (exits_app _ _ _ _ _ _ H Hfinal) as Hvia.
  rewrite (exits_deterministic _ _ _ _ _ _ H' Hvia).
  apply (exits_counts_up _ _ _ _ Hfinal).
Qed.

(** Bytes at which every sync match is rejected, in front of [rest], leave
    the counter what it is on [rest] alone. *)
Lemma exits_rejected_prefix (junk rest : list byte) (r : Z * Z) :
  (forall i, 0 <= i < Buffer.length junk ->
             frame_sync (junk ++ rest) i = false
             \/ StreamingMp3Parser.getFrameSize (junk ++ rest) i = 0) ->
  exits body rest 0 0 r ->
  exists g, exits body (junk ++ rest) 0 0 (g, r.2).
Proof.
  intros Hjunk Hrest.
  pose proof (length_nonneg junk) as HN. pose proof (length_nonneg rest) as HR.
  assert (Hlen : Buffer.length (junk ++ rest)
                 = Buffer.length junk + Buffer.length rest) by apply length_app.
  destruct (Z_le_gt_dec MP3_CONSTANTS.MIN_HEADER_SIZE (Buffer.length rest))
    as [Hroom | Hshort]; unfold MP3_CONSTANTS.MIN_HEADER_SIZE in *.
  - exists (r.1 + Buffer.length junk).
    apply (exits_skip _ _ _ _ (Z.to_nat (Buffer.length junk))).
    + intros i Hi. apply body_rejects, Hjunk. lia.
    + unfold MP3_CONSTANTS.MIN_HEADER_SIZE. lia.
    + rewrite Z2Nat.id by lia.
      apply (exits_after junk rest 0 0 r); [lia | exact Hrest].
  - assert (Hr : r = (0, 0)).
    { eapply exits_deterministic; [exact Hrest|].
      apply exits_guard. unfold MP3_CONSTANTS.MIN_HEADER_SIZE. lia. }
    subst r. simpl.
    destruct (Z_le_gt_dec (Buffer.length (junk ++ rest)) 4) as [Hnone | Hsome].
    + exists 0. apply exits_guard. unfold MP3_CONSTANTS.MIN_HEADER_SIZE. lia.
    + set (stop := Buffer.length (junk ++ rest) - 4).
      exists stop.
      apply (exits_skip _ _ _ _ (Z.to_nat stop)).
      * intros i Hi. apply body_rejects, Hjunk. unfold stop in Hi. lia.
      * unfold MP3_CONSTANTS.MIN_HEADER_SIZE, stop. lia.
      * rewrite Z2Nat.id by (unfold stop; lia).
        apply exits_guard. unfold MP3_CONSTANTS.MIN_HEADER_SIZE, stop. lia.
Qed.

(** Complete frames in front of [rest] add their number to the counter. *)
Lemma exits_leading_frames (frames : list (list byte)) (rest : list byte) :
  Forall whole_frame frames ->
  forall (c : Z) (r : Z * Z),
    exits body rest 0 c r ->
    exits body (concat frames ++ rest) 0 c
      (r.1 + Buffer.length (concat frames), r.2 + Z.of_nat (List.length frames)).
Proof.
  induction 1 as [|frame frames (Hsync & Hpos & Hsize) Hall IH]; intros c r Hr.
  - destruct r as [g n]. simpl.
    replace (g + Buffer.length []) with g by (unfold Buffer.length; simpl; lia).
    replace (n + Z.of_nat 0) with n by lia. exact Hr.
  - simpl concat. rewrite <- app_assoc.
    set (tail := concat frames ++ rest).
    assert (HL : 96 <= Buffer.length frame).
    { destruct (getFrameSize_bounds frame 0); lia. }
    pose proof (length_nonneg tail) as Htail.
    assert (Hlen : Buffer.length (frame ++ tail)
                   = Buffer.length frame + Buffer.length tail)
      by apply length_app.
    eapply exits_next.
    + unfold MP3_CONSTANTS.MIN_HEADER_SIZE. lia.
    + apply body_accepts.
      * rewrite frame_sync_app_l by lia. exact Hsync.
      * rewrite getFrameSize_app_l by lia. exact Hpos.
      * rewrite getFrameSize_app_l by lia. lia.
    + rewrite getFrameSize_app_l, Hsize by lia.
      pose proof (exits_counter _ _ _ 1 _ Hr) as Hr1.
      pose proof (IH (c + 1) (r.1, r.2 + 1) Hr1) as Hrest. simpl in Hrest.
      pose proof (exits_after frame tail 0 (c + 1) _ ltac:(lia) Hrest) as Hshift.
      simpl in Hshift.
      assert (E1 : r.1 + Buffer.length (frame ++ concat frames)
                   = r.1 + Buffer.length (concat frames) + Buffer.length frame)
        by (rewrite length_app; lia).
      assert (E2 : r.2 + Z.of_nat (List.length (frame :: frames))
                   = r.2 + 1 + Z.of_nat (List.length frames))
        by (simpl List.length; lia).
      rewrite E1, E2. exact Hshift.
Qed.

End Parts.

Lemma streaming_body_counts_up (buffer : list byte) (o c o' c' : Z) :
  StreamingMp3Parser.loopBody buffer o c = Next o' c' -> c <= c'.
Proof.
  destruct (streaming_body_cases buffer o c)
    as [[_ ->] | [(_ & _ & ->) | [(_ & _ & _ & ->) | (_ & _ & _ & ->)]]];
    intros [= <- <-] || discriminate; lia.
Qed.

Lemma whole_body_counts_up (buffer : list byte) (o c o' c' : Z) :
  Mp3Parser.loopBody buffer o c = Next o' c' -> c <= c'.
Proof.
  destruct (whole_body_cases buffer o c)
    as [[_ ->] | [(_ & _ & ->) | (_ & _ & ->)]]; intros [= <- <-]; lia.
Qed.

Lemma whole_body_grows (buffer more : list byte) (o c o' c' : Z) :
  o < Buffer.length buffer - MP3_CONSTANTS.MIN_HEADER_SIZE ->
  Mp3Parser.loopBody buffer o c = Next o' c' ->
  Mp3Parser.loopBody (buffer ++ more) o c = Next o' c'.
Proof.
  intros Hlt Hb. rewrite whole_body_app by exact Hlt. exact Hb.
Qed.

(** Every counted frame takes at least 96 bytes of the buffer. *)
Lemma streaming_exits_room (buffer : list byte) (o c : Z) (r : Z * Z) :
  exits StreamingMp3Parser.loopBody buffer o c r ->
  96 * (r.2 - c) <= r.1 - o.
Proof.
  induction 1 as [o c Hg | o c Hlt Hb | o c o' c' r Hlt Hb H IH]; simpl;
    try lia.
  destruct (streaming_body_cases buffer o c)
    as [[_ E] | [(_ & _ & E) | [(_ & HL & _ & E) | (_ & _ & _ & E)]]];
    rewrite E in Hb; try discriminate; injection Hb as <- <-; lia.
Qed.

Lemma whole_exits_room (buffer : list byte) (o c : Z) (r : Z * Z) :
  exits Mp3Parser.loopBody buffer o c r ->
  r.2 = c \/ 96 * (r.2 - c - 1) + o + 5 <= Buffer.length buffer.
Proof.
  unfold MP3_CONSTANTS.MIN_HEADER_SIZE.
  induction 1 as [o c Hg | o c Hlt Hb | o c o' c' r Hlt Hb H IH]; simpl;
    try (left; reflexivity).
  pose proof (whole_counter_monotone _ _ _ _ H) as Hup.
  destruct (whole_body_cases buffer o c)
    as [[_ E] | [(_ & _ & E) | (_ & HL & E)]];
    rewrite E in Hb; injection Hb as <- <-;
    change Mp3Parser.getFrameSize with StreamingMp3Parser.getFrameSize in *;
    unfold MP3_CONSTANTS.MIN_HEADER_SIZE in *; lia.
Qed.

(** ** Composition of inputs *)

(** X3.  Bytes at the front of the input at none of whose offsets a frame is
    accepted (the sync test fails there, or the decoder rejects the header
    read there) do not change the result of either scanner: it is the result
    on the rest of the input alone. *)
Theorem X3_rejected_prefix_keeps_result (junk rest : list byte) :
  (forall i, 0 <= i < Buffer.length junk ->
             frame_sync (junk ++ rest) i = false
             \/ StreamingMp3Parser.getFrameSize (junk ++ rest) i = 0) ->
  Mp3Parser.getFrameCount (junk ++ rest) = Mp3Parser.getFrameCount rest
  /\ forall chunks chunks' : list (list byte),
       concat chunks = junk ++ rest ->
       concat chunks' = rest ->
       StreamingMp3Parser.getFrameCount (StreamingMp3Parser.delivery chunks)
       = StreamingMp3Parser.getFrameCount (StreamingMp3Parser.delivery chunks').
Proof.
  intros Hjunk. split.
  - destruct (whole_getFrameCount rest) as (g & c & Hex & ->).
    destruct (exits_rejected_prefix Mp3Parser.loopBody whole_body_advances
                whole_body_drop whole_body_rejects junk rest _ Hjunk Hex)
      as [g' Hex'].
    destruct (whole_getFrameCount (junk ++ rest)) as (g2 & c2 & Hex2 & ->).
    pose proof (exits_deterministic _ _ _ _ _ _ Hex2 Hex') as [= -> ->].
    reflexivity.
  - intros chunks chunks' Hcat Hcat'.
    destruct (streaming_getFrameCount chunks') as (g & c & Hex & _ & _ & ->).
    rewrite Hcat' in Hex.
    destruct (exits_rejected_prefix StreamingMp3Parser.loopBody
                streaming_body_advances streaming_body_drop
                streaming_body_rejects junk rest _ Hjunk Hex) as [g' Hex'].
    rewrite <- Hcat in Hex'.
    destruct (streaming_run _ _ _ Hex') as [_ ->]. reflexivity.
Qed.

(** X3 at two bytes 0xFF in front of the 417-byte frame: both offsets pass
    the sync test and both headers have bitrate index 15. *)
Lemma X3_rejected_prefix_keeps_result_witness :
  Mp3Parser.getFrameCount ([xff; xff] ++ frame_128_44100)
  = Mp3Parser.getFrameCount frame_128_44100.
Proof.
  refine (proj1 (X3_rejected_prefix_keeps_result [xff; xff] frame_128_44100 _)).
  intros i Hi. change (Buffer.length [xff; xff]) with 2 in Hi.
  assert (Hcases : i = 0 \/ i = 1) by lia.
  destruct Hcases as [-> | ->]; right; vm_compute; reflexivity.
Defined.

(** X4.  Complete frames at the front of the input add their number to the
    counter of either scanner on the rest of the input; with nothing behind
    them, [n] complete frames back to back, whatever their payload, count as
    [n]. *)
Theorem X4_leading_frames_add_their_number (frames : list (list byte))
    (rest : list byte) :
  Forall whole_frame frames ->
  let n := Z.of_nat (List.length frames) in
  exists c c' : Z,
    0 <= c /\ 0 <= c'
    /\ Mp3Parser.getFrameCount rest = Some (verdict c)
    /\ Mp3Parser.getFrameCount (concat frames ++ rest) = Some (verdict (c + n))
    /\ forall chunks chunks' : list (list byte),
         concat chunks = concat frames ++ rest ->
         concat chunks' = rest ->
         StreamingMp3Parser.getFrameCount (StreamingMp3Parser.delivery chunks')
         = Some (Settled (verdict c'))
         /\ StreamingMp3Parser.getFrameCount
              (StreamingMp3Parser.delivery chunks)
            = Some (Settled (verdict (c' + n))).
Proof.
  intros Hall n.
  destruct (whole_getFrameCount rest) as (g & c & Hex & Hget).
  destruct (streaming_getFrameCount [rest]) as (g' & c' & Hex' & Hc' & _ & _).
  simpl in Hex'. rewrite app_nil_r in Hex'.
  exists c, c'.
  split; [apply (whole_counter_monotone _ _ _ _ Hex)|].
  split; [exact Hc'|]. split; [exact Hget|]. split.
  - pose proof (exits_leading_frames Mp3Parser.loopBody whole_body_advances
                  whole_body_drop whole_body_counter whole_body_accepts
                  frames rest Hall 0 _ Hex) as Hall_ex.
    destruct (whole_getFrameCount (concat frames ++ rest))
      as (g2 & c2 & Hex2 & ->).
    pose proof (exits_deterministic _ _ _ _ _ _ Hex2 Hall_ex) as [= -> ->].
    reflexivity.
  - intros chunks chunks' Hcat Hcat'.
    pose proof (exits_leading_frames StreamingMp3Parser.loopBody
                  streaming_body_advances streaming_body_drop
                  streaming_body_counter streaming_body_accepts
                  frames rest Hall 0 _ Hex') as Hall_ex.
    rewrite <- Hcat' in Hex'. rewrite <- Hcat in Hall_ex.
    destruct (streaming_run _ _ _ Hex') as [_ ->].
    destruct (streaming_run _ _ _ Hall_ex) as [_ ->].
    split; reflexivity.
Qed.

(** X4 at three copies of the 417-byte frame in front of a cut one. *)
Lemma X4_leading_frames_add_their_number_witness :
  exists c c' : Z,
    0 <= c /\ 0 <= c'
    /\ Mp3Parser.getFrameCount (take 100 frame_128_44100) = Some (verdict c)
    /\ Mp3Parser.getFrameCount
         (concat [frame_128_44100; frame_128_44100; frame_128_44100]
          ++ take 100 frame_128_44100)
       = Some (verdict (c + 3))
    /\ forall chunks chunks' : list (list byte),
         concat chunks
         = concat [frame_128_44100; frame_128_44100; frame_128_44100]
           ++ take 100 frame_128_44100 ->
         concat chunks' = take 100 frame_128_44100 ->
         StreamingMp3Parser.getFrameCount (StreamingMp3Parser.delivery chunks')
         = Some (Settled (verdict c'))
         /\ StreamingMp3Parser.getFrameCount
              (StreamingMp3Parser.delivery chunks)
            = Some (Settled (verdict (c' + 3))).
Proof.
  apply (X4_leading_frames_add_their_number
           [frame_128_44100; frame_128_44100; frame_128_44100]
           (take 100 frame_128_44100)).
  repeat constructor; vm_compute; reflexivity.
Defined.

(** X5.  More bytes at the end of the input never lower the counter of
    either scanner. *)
Theorem X5_appending_never_lowers_the_count (buffer more : list byte) :
  exists c c' d d' : Z,
    0 <= c <= c' /\ 0 <= d <= d'
    /\ Mp3Parser.getFrameCount buffer = Some (verdict c)
    /\ Mp3Parser.getFrameCount (buffer ++ more) = Some (verdict c')
    /\ forall chunks chunks' : list (list byte),
         concat chunks = buffer ->
         concat chunks' = buffer ++ more ->
         StreamingMp3Parser.getFrameCount (StreamingMp3Parser.delivery chunks)
         = Some (Settled (verdict d))
         /\ StreamingMp3Parser.getFrameCount
              (StreamingMp3Parser.delivery chunks')
            = Some (Settled (verdict d')).
Proof.
  destruct (whole_getFrameCount buffer) as (g & c & Hex & Hget).
  destruct (whole_getFrameCount (buffer ++ more)) as (g' & c' & Hex' & Hget').
  destruct (streaming_getFrameCount [buffer]) as (h & d & Hsx & Hd & _ & _).
  destruct (streaming_getFrameCount [buffer ++ more])
    as (h' & d' & Hsx' & _ & _ & _).
  simpl in Hsx, Hsx'. rewrite app_nil_r in Hsx, Hsx'.
  exists c, c', d, d'.
  split.
  { split; [apply (whole_counter_monotone _ _ _ _ Hex)|].
    apply (exits_grows Mp3Parser.loopBody whole_body_advances whole_body_grows
             whole_body_counts_up _ _ _ _ Hex Hex'). }
  split.
  { split; [exact Hd|].
    apply (exits_grows StreamingMp3Parser.loopBody streaming_body_advances
             streaming_body_app streaming_body_counts_up _ _ _ _ Hsx Hsx'). }
  split; [exact Hget|]. split; [exact Hget'|].
  intros chunks chunks' Hcat Hcat'.
  rewrite <- Hcat in Hsx. rewrite <- Hcat' in Hsx'.
  destruct (streaming_run _ _ _ Hsx) as [_ ->].
  destruct (streaming_run _ _ _ Hsx') as [_ ->].
  split; reflexivity.
Qed.

(** X6.  A count is backed by bytes.  When the streaming scanner resolves
    with [n], the input holds at least [96 * n] bytes, and before the end of
    the stream the counter never exceeds the bytes received divided by 96;
    when the whole-buffer scanner returns [n], the input holds at least
    [96 * (n - 1) + 5] bytes.  So the streaming scanner rejects every input
    shorter than 96 bytes and the whole-buffer scanner every input of at
    most 4 bytes; a 96-byte frame and a 5-byte one show that the bounds are
    met. *)
Theorem X6_counted_frames_fit_the_input (chunks : list (list byte)) (n : Z) :
  (StreamingMp3Parser.getFrameCount (StreamingMp3Parser.delivery chunks)
   = Some (Settled (Returned n)) ->
   1 <= n /\ 96 * n <= Buffer.length (concat chunks))
  /\ (forall st,
        StreamingMp3Parser.feed StreamingMp3Parser.initial chunks = Some st ->
        0 <= StreamingMp3Parser.frameCount st
        /\ 96 * StreamingMp3Parser.frameCount st
           <= Buffer.length (concat chunks))
  /\ (Mp3Parser.getFrameCount (concat chunks) = Some (Returned n) ->
      1 <= n /\ 96 * (n - 1) + 5 <= Buffer.length (concat chunks))
  /\ (Buffer.length (concat chunks) < 96 ->
      StreamingMp3Parser.getFrameCount (StreamingMp3Parser.delivery chunks)
      = Some (Settled (Thrown (InvalidMp3 "No valid MP3 frames found"))))
  /\ (Buffer.length (concat chunks) <= 4 ->
      Mp3Parser.getFrameCount (concat chunks)
      = Some (Thrown (InvalidMp3 "No valid MP3 frames found")))
  /\ Buffer.length (header_32_48000 ++ replicate 92 x00) = 96
  /\ StreamingMp3Parser.getFrameCount
       (StreamingMp3Parser.delivery [header_32_48000 ++ replicate 92 x00])
     = Some (Settled (Returned 1))
  /\ Mp3Parser.getFrameCount (header_32_48000 ++ [x00]) = Some (Returned 1).
Proof.
  destruct (streaming_getFrameCount chunks) as (g & c & Hex & Hc & Hfeed & Hget).
  pose proof (streaming_exits_room _ _ _ _ Hex) as Hroom. simpl in Hroom.
  destruct (streaming_exits_in_buffer _ _ _ _ Hex) as [[_ Hg] _];
    [apply length_nonneg|]. simpl in Hg.
  destruct (whole_getFrameCount (concat chunks)) as (g' & c' & Hex' & Hget').
  pose proof (whole_exits_room _ _ _ _ Hex') as Hroom'. simpl in Hroom'.
  pose proof (whole_counter_monotone _ _ _ _ Hex') as Hc'. simpl in Hc'.
  assert (Hverdict : forall k m, 0 <= k -> verdict k = Returned m ->
            k = m /\ 1 <= m).
  { intros k m Hk. unfold verdict. destruct (Z.eqb_spec k 0); [discriminate|].
    intros [= <-]. lia. }
  split; [|split; [|split; [|split; [|split]]]].
  - rewrite Hget. intros [= Hv]. apply Hverdict in Hv as [<- Hn]; lia.
  - rewrite Hfeed. intros st [= <-]. simpl. lia.
  - rewrite Hget'. intros [= Hv]. apply Hverdict in Hv as [<- Hn]; lia.
  - intros Hshort. rewrite Hget. unfold verdict.
    destruct (Z.eqb_spec c 0); [reflexivity | lia].
  - intros Hshort. rewrite Hget'. unfold verdict.
    destruct (Z.eqb_spec c' 0); [reflexivity | lia].
  - split; [vm_compute; reflexivity|].
    split; vm_compute; reflexivity.
Qed.

(** ** The header the test helper builds *)

Lemma ToInt32_mod (z m k : Z) :
  0 < m -> 2 ^ 31 = k * m -> JS.ToInt32 z mod m = z mod m.
Proof.
  intros Hm Hk. unfold JS.ToInt32.
  replace (2 ^ 32) with (2 * k * m) by lia.
  rewrite Hk.
  replace ((z + k * m) mod (2 * k * m) - k * m)
    with ((z + k * m) mod (2 * k * m) + (- k) * m) by lia.
  rewrite Z.mod_add by lia.
  rewrite Z.mul_comm with (n := 2 * k).
  rewrite Z.rem_mul_r by lia.
  rewrite Z.mul_comm with (n := m).
  rewrite Z.mod_add by lia. rewrite Z.mod_mod by lia.
  apply Z.mod_add. lia.
Qed.

Lemma land_2 (a : Z) : Z.land a 2 = 2 * ((a mod 4) / 2).
Proof.
  replace (Z.land a 2) with (Z.land (Z.land a (Z.ones 2)) 2)
    by (rewrite <- Z.land_assoc; reflexivity).
  rewrite Z.land_ones by lia. change (2 ^ 2) with 4.
  assert (H : 0 <= a mod 4 < 4) by (apply Z.mod_pos_bound; lia).
  assert (Hc : a mod 4 = 0 \/ a mod 4 = 1 \/ a mod 4 = 2 \/ a mod 4 = 3) by lia.
  destruct Hc as [-> | [-> | [-> | ->]]]; reflexivity.
Qed.

(** [(padding << 1) & 0x02] is the low bit of [padding], moved up by one. *)
Lemma padding_bit (padding : Z) :
  JS.and (JS.shl padding 1) 0x02 = 2 * (padding mod 2).
Proof.
  unfold JS.and, JS.shl.
  change (Z.land 1 31) with 1. rewrite Z.shiftl_mul_pow2 by lia.
  rewrite (ToInt32_small 2) by lia. rewrite land_2.
  rewrite !(ToInt32_mod _ 4 (2 ^ 29)) by lia.
  pose proof (ToInt32_mod padding 2 (2 ^ 30) ltac:(lia) ltac:(lia)) as Hlow.
  change (2 ^ 1) with 2.
  Z.div_mod_to_equations. lia.
Qed.

Lemma indexOf_from_spec (array : list Z) (x : Z) :
  forall k : Z,
    0 <= k ->
    (JS.indexOf_from array x k = -1 /\ x ∉ array)
    \/ (k <= JS.indexOf_from array x k < k + Z.of_nat (List.length array)
        /\ array !! Z.to_nat (JS.indexOf_from array x k - k) = Some x).
Proof.
  induction array as [|y array IH]; intros k Hk; simpl.
  - left. split; [reflexivity | apply not_elem_of_nil].
  - destruct (Z.eqb_spec y x) as [-> | Hne].
    + right. split; [lia|]. rewrite Z.sub_diag. reflexivity.
    + destruct (IH (k + 1) ltac:(lia)) as [[-> Hnot] | [Hrange Hat]].
      * left. split; [reflexivity|]. apply not_elem_of_cons. split; congruence.
      * right. split; [lia|].
        replace (Z.to_nat (JS.indexOf_from array x (k + 1) - k))
          with (S (Z.to_nat (JS.indexOf_from array x (k + 1) - (k + 1))))
          by lia.
        exact Hat.
Qed.

Lemma indexOf_spec (array : list Z) (x : Z) :
  (JS.indexOf array x = -1 /\ x ∉ array)
  \/ (0 <= JS.indexOf array x < Z.of_nat (List.length array)
      /\ array !! Z.to_nat (JS.indexOf array x) = Some x).
Proof.
  destruct (indexOf_from_spec array x 0 ltac:(lia)) as [H | [Hrange Hat]];
    [left; exact H | right].
  unfold JS.indexOf. rewrite Z.sub_0_r in Hat. split; [lia | exact Hat].
Qed.

(** The header by the index of the bitrate, the index of the sample rate and
    the padding bit, each as [createValidMp3Frame] finds it. *)
Lemma created_header_by_index (bitrate sampleRate padding ib si pb : Z) :
  JS.indexOf TestSupport.bitrateTable bitrate = ib ->
  JS.indexOf TestSupport.sampleRateTable sampleRate = si ->
  padding mod 2 = pb ->
  -1 <= ib <= 15 -> -1 <= si <= 3 -> 0 <= pb <= 1 ->
  let header := TestSupport.createValidMp3Frame bitrate sampleRate padding in
  let kbps := nth (Z.to_nat (ib mod 16)) TestSupport.bitrateTable 0 in
  let hz := nth (Z.to_nat (si mod 4)) TestSupport.sampleRateTable 0 in
  List.length header = 4%nat
  /\ frame_sync header 0 = true
  /\ StreamingMp3Parser.getFrameSize header 0
     = (if (kbps =? 0) || (hz =? 0) then 0 else 144 * kbps * 1000 / hz + pb)
  /\ TestSupport.frameSize kbps hz pb
     = (if hz =? 0 then TestSupport.frameSize kbps hz pb
        else 144 * kbps * 1000 / hz + pb).
Proof.
  intros Hib His Hpb Rb Rs Rp.
  unfold TestSupport.createValidMp3Frame. cbv zeta.
  rewrite padding_bit, Hib, His, Hpb. clear Hib His Hpb.
  assert (Eb : exists n : nat, ib = Z.of_nat n - 1 /\ (n < 17)%nat)
    by (exists (Z.to_nat (ib + 1)); lia).
  assert (Es : exists n : nat, si = Z.of_nat n - 1 /\ (n < 5)%nat)
    by (exists (Z.to_nat (si + 1)); lia).
  assert (Ep : pb = 0 \/ pb = 1) by lia.
  destruct Eb as (nb & -> & Hnb), Es as (ns & -> & Hns).
  do 17 (destruct nb as [|nb];
         [do 5 (destruct ns as [|ns];
                [destruct Ep as [-> | ->];
                 (split; [vm_compute; reflexivity|]);
                 (split; [vm_compute; reflexivity|]);
                 (split; vm_compute; reflexivity)|]); lia|]).
  lia.
Qed.

(** What [createValidMp3Frame] puts into the header: the table entry its
    bitrate index and its sample-rate index select is the argument when the
    table holds the argument, and 0 otherwise. *)
Lemma created_header_fields (bitrate sampleRate padding : Z) :
  let header := TestSupport.createValidMp3Frame bitrate sampleRate padding in
  exists kbps hz : Z,
    ((bitrate ∈ TestSupport.bitrateTable /\ kbps = bitrate)
     \/ ((bitrate ∉ TestSupport.bitrateTable) /\ kbps = 0))
    /\ ((sampleRate ∈ TestSupport.sampleRateTable /\ hz = sampleRate)
        \/ ((sampleRate ∉ TestSupport.sampleRateTable) /\ hz = 0))
    /\ List.length header = 4%nat
    /\ frame_sync header 0 = true
    /\ StreamingMp3Parser.getFrameSize header 0
       = (if (kbps =? 0) || (hz =? 0) then 0
          else 144 * kbps * 1000 / hz + padding mod 2)
    /\ TestSupport.frameSize kbps hz (padding mod 2)
       = (if hz =? 0 then TestSupport.frameSize kbps hz (padding mod 2)
          else 144 * kbps * 1000 / hz + padding mod 2).
Proof.
  intros header.
  set (ib := JS.indexOf TestSupport.bitrateTable bitrate).
  set (si := JS.indexOf TestSupport.sampleRateTable sampleRate).
  set (kbps := nth (Z.to_nat (ib mod 16)) TestSupport.bitrateTable 0).
  set (hz := nth (Z.to_nat (si mod 4)) TestSupport.sampleRateTable 0).
  assert (Hpb : 0 <= padding mod 2 < 2) by (apply Z.mod_pos_bound; lia).
  assert (Hkbps : (bitrate ∈ TestSupport.bitrateTable /\ kbps = bitrate)
                  \/ ((bitrate ∉ TestSupport.bitrateTable) /\ kbps = 0)).
  { destruct (indexOf_spec TestSupport.bitrateTable bitrate)
      as [[Hi Hnot] | [Hrange Hat]]; first [fold ib in Hi | fold ib in Hrange, Hat].
    - right. split; [exact Hnot|]. unfold kbps. rewrite Hi. reflexivity.
    - left. split; [apply (list_elem_of_lookup_2 _ _ _ Hat)|].
      unfold kbps. change (Z.of_nat (List.length TestSupport.bitrateTable))
        with 16 in Hrange.
      rewrite Z.mod_small by lia. apply nth_lookup_Some with (d := 0) in Hat.
      exact Hat. }
  assert (Hhz : (sampleRate ∈ TestSupport.sampleRateTable /\ hz = sampleRate)
                \/ ((sampleRate ∉ TestSupport.sampleRateTable) /\ hz = 0)).
  { destruct (indexOf_spec TestSupport.sampleRateTable sampleRate)
      as [[Hi Hnot] | [Hrange Hat]]; first [fold si in Hi | fold si in Hrange, Hat].
    - right. split; [exact Hnot|]. unfold hz. rewrite Hi. reflexivity.
    - left. split; [apply (list_elem_of_lookup_2 _ _ _ Hat)|].
      unfold hz. change (Z.of_nat (List.length TestSupport.sampleRateTable))
        with 4 in Hrange.
      rewrite Z.mod_small by lia. apply nth_lookup_Some with (d := 0) in Hat.
      exact Hat. }
  assert (Rb : -1 <= ib <= 15).
  { destruct (indexOf_spec TestSupport.bitrateTable bitrate)
      as [[Hi _] | [Hrange _]]; first [fold ib in Hi | fold ib in Hrange];
      change (Z.of_nat (List.length TestSupport.bitrateTable)) with 16 in *;
      lia. }
  assert (Rs : -1 <= si <= 3).
  { destruct (indexOf_spec TestSupport.sampleRateTable sampleRate)
      as [[Hi _] | [Hrange _]]; first [fold si in Hi | fold si in Hrange];
      change (Z.of_nat (List.length TestSupport.sampleRateTable)) with 4 in *;
      lia. }
  destruct (created_header_by_index bitrate sampleRate padding ib si
              (padding mod 2) eq_refl eq_refl eq_refl Rb Rs ltac:(lia))
    as (Hlen & Hsync & Hsize & Htest).
  fold header kbps hz in Hlen, Hsync, Hsize, Htest.
  exists kbps, hz. repeat split; assumption.
Qed.

(** X7.  The four bytes [createValidMp3Frame] builds always pass the sync
    test.  For a bitrate and a sample rate that the tables hold and that are
    not 0, both decoders read back from them the length
    [floor(144 * bitrate * 1000 / sampleRate)] plus the low bit of
    [padding], which for a padding of 0 or 1 is the frame size the tests
    compute; for any other bitrate or sample rate ([indexOf] gives -1, or the
    index of an entry 0) both decoders reject the header. *)
Theorem X7_created_header_decodes_to_its_arguments
    (bitrate sampleRate padding : Z) :
  let header := TestSupport.createValidMp3Frame bitrate sampleRate padding in
  List.length header = 4%nat
  /\ frame_sync header 0 = true
  /\ Mp3Parser.getFrameSize header 0 = StreamingMp3Parser.getFrameSize header 0
  /\ (bitrate ∈ TestSupport.bitrateTable -> bitrate <> 0 ->
      sampleRate ∈ TestSupport.sampleRateTable -> sampleRate <> 0 ->
      StreamingMp3Parser.getFrameSize header 0
      = 144 * bitrate * 1000 / sampleRate + padding mod 2
      /\ 96 <= StreamingMp3Parser.getFrameSize header 0
      /\ (0 <= padding <= 1 ->
          TestSupport.frameSize bitrate sampleRate padding
          = StreamingMp3Parser.getFrameSize header 0))
  /\ (bitrate ∉ TestSupport.bitrateTable \/ bitrate = 0
      \/ sampleRate ∉ TestSupport.sampleRateTable \/ sampleRate = 0 ->
      StreamingMp3Parser.getFrameSize header 0 = 0).
Proof.
  intros header.
  destruct (created_header_fields bitrate sampleRate padding)
    as (kbps & hz & Hkbps & Hhz & Hlen & Hsync & Hsize & Htest).
  fold header in Hlen, Hsync, Hsize.
  assert (Hpb : 0 <= padding mod 2 < 2) by (apply Z.mod_pos_bound; lia).
  split; [exact Hlen|]. split; [exact Hsync|].
  split; [apply Mp3Parser_getFrameSize|].
  split.
  - intros Hb Hb0 Hs Hs0.
    destruct Hkbps as [[_ Ek] | [Hnot _]]; [|contradiction].
    destruct Hhz as [[_ Eh] | [Hnot _]]; [|contradiction].
    rewrite Ek, Eh in Hsize, Htest.
    rewrite (proj2 (Z.eqb_neq bitrate 0) Hb0) in Hsize.
    rewrite (proj2 (Z.eqb_neq sampleRate 0) Hs0) in Hsize, Htest.
    change (false || false) with false in Hsize. cbv iota in Hsize, Htest.
    split; [exact Hsize|]. split.
    + assert (Hq : 1 <= 144 * bitrate * 1000 / sampleRate).
      { unfold TestSupport.bitrateTable, TestSupport.sampleRateTable in Hb, Hs.
        apply list_elem_of_In in Hb, Hs. simpl in Hb, Hs.
        apply Z.div_le_lower_bound; lia. }
      destruct (getFrameSize_bounds header 0) as [H0 | Hb96]; lia.
    + intros Hp. rewrite Hsize, <- Htest. rewrite Z.mod_small by lia.
      reflexivity.
  - intros Hbad. rewrite Hsize.
    destruct Hkbps as [[Hin Ek] | [Hnot Ek]], Hhz as [[Hin' Eh] | [Hnot' Eh]];
      rewrite Ek, Eh.
    + destruct Hbad as [Hb | [-> | [Hs | ->]]]; try contradiction;
        try reflexivity.
      destruct (bitrate =? 0); reflexivity.
    + destruct (bitrate =? 0); reflexivity.
    + reflexivity.
    + reflexivity.
Qed.

(** ** The inputs the tests build *)

Lemma concat_replicate_snoc (k : nat) (frame : list byte) :
  concat (replicate k frame) ++ frame = frame ++ concat (replicate k frame).
Proof.
  induction k as [|k IH]; simpl; [rewrite app_nil_r; reflexivity|].
  rewrite <- app_assoc, IH. reflexivity.
Qed.

Lemma length_concat_replicate (k : nat) (frame : list byte) :
  List.length (concat (replicate k frame)) = (k * List.length frame)%nat.
Proof.
  induction k as [|k IH]; simpl; [reflexivity|].
  rewrite List.length_app, IH. reflexivity.
Qed.

(** Copying the header to the start of the next frame of a buffer whose
    first [k] frames are in place puts the next frame in place. *)
Lemma copy_header_at (header : list byte) (size k m : nat) :
  List.length header = 4%nat -> (4 <= size)%nat ->
  let frame := header ++ replicate (size - 4) x00 in
  Buffer.copy header
    (concat (replicate k frame) ++ replicate (S m * size) x00) (k * size)
  = concat (replicate (S k) frame) ++ replicate (m * size) x00.
Proof.
  intros Hheader Hsize frame.
  assert (Hframe : List.length frame = size).
  { unfold frame. rewrite List.length_app, length_replicate. lia. }
  assert (Hdone : List.length (concat (replicate k frame)) = (k * size)%nat).
  { rewrite length_concat_replicate, Hframe. reflexivity. }
  unfold Buffer.copy.
  rewrite take_app_length' by (symmetry; exact Hdone).
  rewrite List.length_app, length_replicate, Hdone.
  rewrite (take_ge header) by (simpl; lia).
  rewrite drop_app_ge by lia.
  rewrite Hdone, Hheader, drop_replicate.
  replace (S m * size - (k * size + 4 - k * size))%nat
    with ((size - 4) + m * size)%nat by (simpl; lia).
  rewrite replicate_add.
  change (concat (replicate (S k) frame))
    with (frame ++ concat (replicate k frame)).
  rewrite <- concat_replicate_snoc. unfold frame.
  rewrite <- !app_assoc. reflexivity.
Qed.

Lemma copy_headers (header : list byte) (size : nat) :
  List.length header = 4%nat -> (4 <= size)%nat ->
  let frame := header ++ replicate (size - 4) x00 in
  forall m k : nat,
    fold_left
      (fun buffer i =>
         Buffer.copy header buffer (Z.to_nat (Z.of_nat i * Z.of_nat size)))
      (seq k m)
      (concat (replicate k frame) ++ replicate (m * size) x00)
    = concat (replicate (k + m) frame).
Proof.
  intros Hheader Hsize frame m.
  induction m as [|m IH]; intros k.
  - simpl. rewrite app_nil_r, Nat.add_0_r. reflexivity.
  - cbn [seq fold_left].
    replace (Z.to_nat (Z.of_nat k * Z.of_nat size)) with (k * size)%nat by lia.
    pose proof (copy_header_at header size k m Hheader Hsize) as Hcopy.
    cbv zeta in Hcopy. fold frame in Hcopy. rewrite Hcopy.
    rewrite IH. f_equal. f_equal. lia.
Qed.

(** The input of the tests is the header followed by zero bytes up to the
    frame size, [numFrames] times. *)
Lemma framesBuffer_frames (bitrate sampleRate padding : Z) (numFrames : nat) :
  4 <= TestSupport.frameSize bitrate sampleRate padding ->
  TestSupport.framesBuffer bitrate sampleRate padding numFrames
  = concat
      (replicate numFrames
         (TestSupport.createValidMp3Frame bitrate sampleRate padding
          ++ replicate
               (Z.to_nat (TestSupport.frameSize bitrate sampleRate padding) - 4)
               x00)).
Proof.
  intros Hsize. unfold TestSupport.framesBuffer. cbv zeta.
  set (header := TestSupport.createValidMp3Frame bitrate sampleRate padding).
  set (L := TestSupport.frameSize bitrate sampleRate padding) in *.
  destruct (created_header_fields bitrate sampleRate padding)
    as (_ & _ & _ & _ & Hlen & _). fold header in Hlen.
  pose proof (copy_headers header (Z.to_nat L) Hlen ltac:(lia) numFrames 0%nat)
    as Hfold.
  cbv zeta in Hfold. simpl replicate at 1 in Hfold. simpl concat at 1 in Hfold.
  simpl app at 1 in Hfold. rewrite Nat.add_0_l in Hfold.
  rewrite <- Hfold. unfold Buffer.alloc.
  replace (Z.to_nat (L * Z.of_nat numFrames))
    with (numFrames * Z.to_nat L)%nat by lia.
  rewrite Z2Nat.id by lia. reflexivity.
Qed.

(** X8.  The buffers the parser tests build, [numFrames] frames of the frame
    size the tests compute with the header of [createValidMp3Frame] at the
    start of each, for every bitrate and sample rate of the tables other
    than 0, padding 0 or 1 and at least one frame: both scanners count
    exactly [numFrames], the streaming scanner for every cut into chunks. *)
Theorem X8_test_buffers_count_their_frames
    (bitrate sampleRate padding : Z) (numFrames : nat) :
  bitrate ∈ TestSupport.bitrateTable -> bitrate <> 0 ->
  sampleRate ∈ TestSupport.sampleRateTable -> sampleRate <> 0 ->
  0 <= padding <= 1 ->
  (1 <= numFrames)%nat ->
  let input := TestSupport.framesBuffer bitrate sampleRate padding numFrames in
  Buffer.length input
  = TestSupport.frameSize bitrate sampleRate padding * Z.of_nat numFrames
  /\ Mp3Parser.getFrameCount input = Some (Returned (Z.of_nat numFrames))
  /\ forall chunks : list (list byte),
       concat chunks = input ->
       StreamingMp3Parser.getFrameCount (StreamingMp3Parser.delivery chunks)
       = Some (Settled (Returned (Z.of_nat numFrames))).
Proof.
  intros Hb Hb0 Hs Hs0 Hp Hn input.
  set (header := TestSupport.createValidMp3Frame bitrate sampleRate padding).
  set (L := TestSupport.frameSize bitrate sampleRate padding).
  destruct (created_header_fields bitrate sampleRate padding)
    as (kbps & hz & Hkbps & Hhz & Hlen & Hsync & Hsize & Htest).
  fold header in Hlen, Hsync, Hsize.
  destruct Hkbps as [[_ Ek] | [Hnot _]]; [|contradiction].
  destruct Hhz as [[_ Eh] | [Hnot _]]; [|contradiction].
  rewrite Ek, Eh in Hsize, Htest.
  rewrite (proj2 (Z.eqb_neq bitrate 0) Hb0) in Hsize.
  rewrite (proj2 (Z.eqb_neq sampleRate 0) Hs0) in Hsize, Htest.
  change (false || false) with false in Hsize. cbv iota in Hsize, Htest.
  rewrite Z.mod_small in Hsize, Htest by lia. fold L in Htest.
  assert (HL : StreamingMp3Parser.getFrameSize header 0 = L) by congruence.
  assert (HL96 : 96 <= L).
  { destruct (getFrameSize_bounds header 0) as [H0 | H96]; [|lia].
    assert (Hq : 1 <= 144 * bitrate * 1000 / sampleRate).
    { unfold TestSupport.bitrateTable, TestSupport.sampleRateTable in Hb, Hs.
      apply list_elem_of_In in Hb, Hs. simpl in Hb, Hs.
      apply Z.div_le_lower_bound; lia. }
    lia. }
  set (frame := header ++ replicate (Z.to_nat L - 4) x00).
  assert (Hinput : input = concat (replicate numFrames frame)).
  { apply framesBuffer_frames. fold L. lia. }
  assert (Hframe_len : Buffer.length frame = L).
  { unfold Buffer.length, frame. rewrite List.length_app, length_replicate. lia. }
  assert (Hframe : whole_frame frame).
  { unfold whole_frame, frame.
    rewrite frame_sync_app_l, getFrameSize_app_l
      by (unfold Buffer.length; rewrite Hlen; lia).
    fold frame. rewrite Hframe_len.
    split; [exact Hsync|]. split; [lia | exact HL]. }
  assert (Hall : Forall whole_frame (replicate numFrames frame)).
  { apply Forall_replicate. exact Hframe. }
  assert (Hempty : forall body, exits body [] 0 0 (0, 0)).
  { intros body. apply exits_guard.
    unfold Buffer.length, MP3_CONSTANTS.MIN_HEADER_SIZE. simpl. lia. }
  assert (Hcount : Z.of_nat (List.length (replicate numFrames frame))
                   = Z.of_nat numFrames) by (rewrite length_replicate; reflexivity).
  split; [|split].
  - rewrite Hinput. unfold Buffer.length.
    rewrite length_concat_replicate. unfold Buffer.length in Hframe_len. nia.
  - pose proof (exits_leading_frames Mp3Parser.loopBody whole_body_advances
                  whole_body_drop whole_body_counter whole_body_accepts
                  _ [] Hall 0 _ (Hempty _)) as Hex.
    rewrite app_nil_r in Hex. simpl in Hex. rewrite Hcount in Hex.
    rewrite <- Hinput in Hex.
    destruct (whole_getFrameCount input) as (g & c & Hex' & ->).
    pose proof (exits_deterministic _ _ _ _ _ _ Hex' Hex) as [= -> ->].
    rewrite verdict_positive by lia. reflexivity.
  - intros chunks Hcat.
    pose proof (exits_leading_frames StreamingMp3Parser.loopBody
                  streaming_body_advances streaming_body_drop
                  streaming_body_counter streaming_body_accepts
                  _ [] Hall 0 _ (Hempty _)) as Hex.
    rewrite app_nil_r in Hex. simpl in Hex. rewrite Hcount in Hex.
    rewrite <- Hinput, <- Hcat in Hex.
    destruct (streaming_run _ _ _ Hex) as [_ ->].
    rewrite verdict_positive by lia. reflexivity.
Qed.

(** X8 at the test of frames across chunks: 200 frames of 320 kbps at
    44100 Hz. *)
Lemma X8_test_buffers_count_their_frames_witness :
  Mp3Parser.getFrameCount (TestSupport.framesBuffer 320 44100 0 200)
  = Some (Returned (Z.of_nat 200)).
Proof.
  refine (proj1 (proj2 (X8_test_buffers_count_their_frames 320 44100 0 200
                          _ _ _ _ _ _))).
  - unfold TestSupport.bitrateTable. repeat constructor.
  - discriminate.
  - unfold TestSupport.sampleRateTable. repeat constructor.
  - discriminate.
  - lia.
  - lia.
Defined.

(** ** The promise and the upload route *)

Lemma handle_data (chunks : list (list byte)) (tail : list event) :
  forall st : StreamingMp3Parser.state,
    StreamingMp3Parser.handle st ((Data <$> chunks) ++ tail)
    = st' ← StreamingMp3Parser.feed st chunks;
      StreamingMp3Parser.handle st' tail.
Proof.
  induction chunks as [|chunk chunks IH]; intros st; simpl; [reflexivity|].
  destruct (StreamingMp3Parser.onData st chunk) as [st1|]; simpl;
    [apply IH | reflexivity].
Qed.

(** Every sequence of events is data up to the first end or error. *)
Lemma events_split (events : list event) :
  exists (chunks : list (list byte)) (tail : list event),
    events = (Data <$> chunks) ++ tail
    /\ (tail = []
        \/ (exists rest, tail = End :: rest)
        \/ (exists message rest, tail = Error message :: rest)).
Proof.
  induction events as [|e events (chunks & tail & -> & Htail)].
  - exists [], []. split; [reflexivity | left; reflexivity].
  - destruct e as [chunk | | message].
    + exists (chunk :: chunks), tail. split; [reflexivity | exact Htail].
    + exists [], (End :: (Data <$> chunks) ++ tail).
      split; [reflexivity | right; left; eexists; reflexivity].
    + exists [], (Error message :: (Data <$> chunks) ++ tail).
      split; [reflexivity | right; right; do 2 eexists; reflexivity].
Qed.

(** How the promise stands after any events: pending after data alone,
    settled by the counter at the first end, rejected at the first error. *)
Lemma getFrameCount_cases (events : list event) :
  exists chunks : list (list byte),
    (events = Data <$> chunks
     /\ StreamingMp3Parser.getFrameCount events = Some Pending)
    \/ (exists (rest : list event) (c : Z),
          events = (Data <$> chunks) ++ End :: rest
          /\ 0 <= c
          /\ StreamingMp3Parser.getFrameCount events = Some (Settled (verdict c)))
    \/ (exists (message : string) (rest : list event),
          events = (Data <$> chunks) ++ Error message :: rest
          /\ StreamingMp3Parser.getFrameCount events
             = Some (Settled (StreamingMp3Parser.onError message))).
Proof.
  destruct (events_split events)
    as (chunks & tail & -> & [-> | [[rest ->] | (message & rest & ->)]]);
    exists chunks; unfold StreamingMp3Parser.getFrameCount;
    rewrite handle_data;
    destruct (streaming_getFrameCount chunks) as (g & c & _ & Hc & -> & _);
    simpl.
  - left. rewrite app_nil_r. split; reflexivity.
  - right. left. exists rest, c. split; [reflexivity|]. split; [exact Hc|].
    reflexivity.
  - right. right. exists message, rest. split; reflexivity.
Qed.

Lemma cleanUp_delete (fs : gmap string (list byte)) (filePath : string) :
  filePath <> EmptyString ->
  UploadRoutes.cleanUp fs filePath = delete filePath fs.
Proof.
  intros Hpath. unfold UploadRoutes.cleanUp.
  apply String.eqb_neq in Hpath. rewrite Hpath.
  destruct (fs !! filePath) eqn:E; [reflexivity|].
  symmetry. apply delete_id. exact E.
Qed.

Lemma cleanUp_empty_path (fs : gmap string (list byte)) :
  UploadRoutes.cleanUp fs EmptyString = fs.
Proof. reflexivity. Qed.

Lemma verdict_cases (c : Z) :
  0 <= c ->
  (c = 0 /\ verdict c = Thrown (InvalidMp3 "No valid MP3 frames found"))
  \/ (1 <= c /\ verdict c = Returned c).
Proof.
  intros Hc. unfold verdict. destruct (Z.eqb_spec c 0) as [-> | Hne];
    [left; split; reflexivity | right; split; [lia | reflexivity]].
Qed.

(** X9.  The upload route on a file that is there and is read without
    failure: the client gets status 200 with the frame count when the scan
    counts at least one frame, status 400 with 'File is empty' for an empty
    file and status 400 with 'No valid MP3 frames found' otherwise; in each
    case the uploaded file, and no other, is gone from the file system when
    the handler is through. *)
Theorem X9_upload_route_on_a_readable_file (fs : gmap string (list byte))
    (filePath : string) (content : list byte) (chunks : list (list byte)) :
  filePath <> EmptyString ->
  fs !! filePath = Some content ->
  concat chunks = content ->
  exists (g c : Z) (reply : UploadRoutes.response),
    exits StreamingMp3Parser.loopBody content 0 0 (g, c)
    /\ UploadRoutes.app fs (Some filePath) (StreamingMp3Parser.delivery chunks)
       = Some (Some reply, delete filePath fs)
    /\ ((content = []
         /\ reply = {| UploadRoutes.status := 400;
                       UploadRoutes.json :=
                         UploadRoutes.ErrorBody "File is empty" |})
        \/ (content <> [] /\ c = 0
            /\ reply = {| UploadRoutes.status := 400;
                          UploadRoutes.json :=
                            UploadRoutes.ErrorBody "No valid MP3 frames found" |})
        \/ (content <> [] /\ 1 <= c
            /\ reply = {| UploadRoutes.status := 200;
                          UploadRoutes.json := UploadRoutes.FrameCountBody c |})).
Proof.
  intros Hpath Hfile Hcat.
  destruct (streaming_getFrameCount chunks) as (g & c & Hex & Hc & _ & Hget).
  rewrite Hcat in Hex. exists g, c.
  unfold UploadRoutes.app, UploadRoutes.handler,
    StreamingMp3Parser.constructor.
  rewrite (proj2 (String.eqb_neq _ _) Hpath), Hfile.
  assert (Hempty : Buffer.length content = 0 <-> content = []).
  { unfold Buffer.length. destruct content; simpl; split; intros H;
      try reflexivity; try discriminate; lia. }
  destruct (Z.eqb_spec (Buffer.length content) 0) as [H0 | Hne].
  - eexists. split; [exact Hex|]. simpl.
    rewrite cleanUp_delete by exact Hpath.
    split; [reflexivity|]. left. split; [apply Hempty, H0 | reflexivity].
  - assert (Hcontent : content <> []) by (intros E; apply Hne, Hempty, E).
    rewrite Hget. simpl.
    destruct (verdict_cases c Hc) as [[-> ->] | [Hpos ->]]; simpl;
      rewrite cleanUp_delete by exact Hpath;
      eexists; (split; [exact Hex|]); (split; [reflexivity|]).
    + right. left. split; [exact Hcontent|]. split; reflexivity.
    + right. right. split; [exact Hcontent|]. split; [exact Hpos | reflexivity].
Qed.

(** X9 at an upload that holds ten frames, read in three chunks, beside
    another file. *)
Lemma X9_upload_route_on_a_readable_file_witness :
  exists (g c : Z) (reply : UploadRoutes.response),
    exits StreamingMp3Parser.loopBody (frames 10) 0 0 (g, c)
    /\ UploadRoutes.app
         (<["uploads/file-1.mp3" := frames 10]> {[ "uploads/other.mp3" := [x00] ]})
         (Some "uploads/file-1.mp3")
         (StreamingMp3Parser.delivery
            [take 1000 (frames 10); take 1000 (drop 1000 (frames 10));
             drop 2000 (frames 10)])
       = Some (Some reply,
               delete "uploads/file-1.mp3"
                 (<["uploads/file-1.mp3" := frames 10]>
                    {[ "uploads/other.mp3" := [x00] ]}))
    /\ ((frames 10 = []
         /\ reply = {| UploadRoutes.status := 400;
                       UploadRoutes.json :=
                         UploadRoutes.ErrorBody "File is empty" |})
        \/ (frames 10 <> [] /\ c = 0
            /\ reply = {| UploadRoutes.status := 400;
                          UploadRoutes.json :=
                            UploadRoutes.ErrorBody "No valid MP3 frames found" |})
        \/ (frames 10 <> [] /\ 1 <= c
            /\ reply = {| UploadRoutes.status := 200;
                          UploadRoutes.json := UploadRoutes.FrameCountBody c |})).
Proof.
  apply (X9_upload_route_on_a_readable_file
           (<["uploads/file-1.mp3" := frames 10]>
              {[ "uploads/other.mp3" := [x00] ]})
           "uploads/file-1.mp3" (frames 10)
           [take 1000 (frames 10); take 1000 (drop 1000 (frames 10));
            drop 2000 (frames 10)]).
  - discriminate.
  - apply lookup_insert_eq.
  - vm_compute. reflexivity.
Defined.

(** X10.  The upload route on any request and any behaviour of the stream.
    It always comes to a result.  A reply is either status 200 with a frame
    count of at least 1 or status 400 with an error message, never anything
    else.  There is no reply only while the stream has emitted nothing but
    data, and then no file has been removed.  Without an uploaded file the
    reply is 400 'No file uploaded' and the file system is untouched; with
    one, once a reply is sent the file at its path, and no other, has been
    removed. *)
Theorem X10_upload_route_replies (fs : gmap string (list byte))
    (file : option string) (events : list event) :
  exists (reply : option UploadRoutes.response)
         (fs' : gmap string (list byte)),
    UploadRoutes.app fs file events = Some (reply, fs')
    /\ (forall r, reply = Some r ->
          (UploadRoutes.status r = 200
           /\ exists n, 1 <= n /\ UploadRoutes.json r = UploadRoutes.FrameCountBody n)
          \/ (UploadRoutes.status r = 400
              /\ exists message,
                   UploadRoutes.json r = UploadRoutes.ErrorBody message))
    /\ (reply = None ->
        fs' = fs
        /\ exists filePath chunks,
             file = Some filePath /\ events = Data <$> chunks)
    /\ (file = None ->
        fs' = fs
        /\ reply = Some {| UploadRoutes.status := 400;
                           UploadRoutes.json :=
                             UploadRoutes.ErrorBody "No file uploaded" |})
    /\ (forall filePath,
          file = Some filePath -> filePath <> EmptyString -> reply <> None ->
          fs' = delete filePath fs).
Proof.
  unfold UploadRoutes.app, UploadRoutes.handler.
  destruct file as [filePath|]; simpl.
  - destruct (StreamingMp3Parser.constructor fs filePath) as [p | [message]]
      eqn:Hctor; simpl.
    + destruct (getFrameCount_cases events)
        as [chunks [[-> ->] | [(rest & c & -> & Hc & ->)
                              | (message & rest & -> & ->)]]]; simpl.
      * exists None, fs. split; [reflexivity|].
        split; [intros r [=]|].
        split; [intros _; split; [reflexivity|]; eauto|].
        split; [intros [=]|]. intros p' _ _ Hreply. contradiction.
      * destruct (verdict_cases c Hc) as [[-> ->] | [Hpos ->]]; simpl;
          eexists; eexists; (split; [reflexivity|]).
        -- split; [intros r [= <-]; right; simpl; eauto|].
           split; [intros [=]|]. split; [intros [=]|].
           intros p' [= <-] Hp' _. apply cleanUp_delete, Hp'.
        -- split; [intros r [= <-]; left; simpl; eauto|].
           split; [intros [=]|]. split; [intros [=]|].
           intros p' [= <-] Hp' _. apply cleanUp_delete, Hp'.
      * eexists; eexists; (split; [reflexivity|]).
        split; [intros r [= <-]; right; simpl; eauto|].
        split; [intros [=]|]. split; [intros [=]|].
        intros p' [= <-] Hp' _. apply cleanUp_delete, Hp'.
    + eexists; eexists; (split; [reflexivity|]).
      split; [intros r [= <-]; right; simpl; eauto|].
      split; [intros [=]|]. split; [intros [=]|].
      intros p' [= <-] Hp' _. apply cleanUp_delete, Hp'.
  - eexists; eexists; (split; [reflexivity|]).
    split; [intros r [= <-]; right; simpl; eauto|].
    split; [intros [=]|]. split; [intros _; split; reflexivity|].
    intros p' [=].
Qed.

(** X11.  A read failure of the stream decides the outcome, whatever was
    counted before it and whatever the stream emits after it: the promise
    rejects with 'Error reading file: ' followed by the cause, which is not
    the message of a scan without frames, and the upload route answers with
    status 400 and that message and removes the uploaded file.  The first
    end of the stream decides in the same way: events after it change
    nothing. *)
Theorem X11_read_failure_rejects (fs : gmap string (list byte))
    (filePath : string) (content : list byte) (chunks : list (list byte))
    (message : string) (rest : list event) :
  filePath <> EmptyString ->
  fs !! filePath = Some content ->
  content <> [] ->
  let failed := (Data <$> chunks) ++ Error message :: rest in
  let wrapped := String.append "Error reading file: " message in
  StreamingMp3Parser.getFrameCount failed
  = Some (Settled (Thrown (InvalidMp3 wrapped)))
  /\ wrapped <> "No valid MP3 frames found"%string
  /\ UploadRoutes.app fs (Some filePath) failed
     = Some (Some {| UploadRoutes.status := 400;
                     UploadRoutes.json := UploadRoutes.ErrorBody wrapped |},
             delete filePath fs)
  /\ StreamingMp3Parser.getFrameCount ((Data <$> chunks) ++ End :: rest)
     = StreamingMp3Parser.getFrameCount (StreamingMp3Parser.delivery chunks).
Proof.
  intros Hpath Hfile Hcontent failed wrapped.
  assert (Hget : StreamingMp3Parser.getFrameCount failed
                 = Some (Settled (Thrown (InvalidMp3 wrapped)))).
  { unfold failed, StreamingMp3Parser.getFrameCount. rewrite handle_data.
    destruct (streaming_getFrameCount chunks) as (g & c & _ & _ & -> & _).
    reflexivity. }
  split; [exact Hget|]. split; [unfold wrapped; simpl; discriminate|].
  split.
  - unfold UploadRoutes.app, UploadRoutes.handler,
      StreamingMp3Parser.constructor.
    rewrite (proj2 (String.eqb_neq _ _) Hpath), Hfile.
    destruct (Z.eqb_spec (Buffer.length content) 0) as [H0 | _].
    + exfalso. apply Hcontent. unfold Buffer.length in H0.
      destruct content; [reflexivity | simpl in H0; lia].
    + rewrite Hget. simpl. rewrite cleanUp_delete by exact Hpath. reflexivity.
  - unfold StreamingMp3Parser.getFrameCount, StreamingMp3Parser.delivery.
    rewrite !handle_data.
    destruct (StreamingMp3Parser.feed StreamingMp3Parser.initial chunks);
      reflexivity.
Qed.

(** X11 at a failure after a chunk in which a frame has been counted. *)
Lemma X11_read_failure_rejects_witness :
  StreamingMp3Parser.getFrameCount
    ((Data <$> [frame_128_44100]) ++ Error "EIO" :: [End])
  = Some (Settled (Thrown (InvalidMp3 "Error reading file: EIO"))).
Proof.
  refine (proj1 (X11_read_failure_rejects
                   {[ "uploads/file-1.mp3" := frame_128_44100 ]}
                   "uploads/file-1.mp3" frame_128_44100 [frame_128_44100]
                   "EIO" [End] _ _ _)).
  - discriminate.
  - apply lookup_singleton_eq.
  - discriminate.
Defined.

(** X12.  What the constructor rejects never reaches the stream: for a path
    that is empty, a path at which there is no file, and a file without
    bytes, the upload route answers with status 400 and the constructor's
    message whatever the stream would emit.  The file system is as it was in
    the first two cases, and loses the empty file, and no other, in the
    third. *)
Theorem X12_route_rejects_before_reading (fs : gmap string (list byte))
    (filePath : string) (events : list event) :
  (filePath = EmptyString ->
   UploadRoutes.app fs (Some filePath) events
   = Some (Some {| UploadRoutes.status := 400;
                   UploadRoutes.json :=
                     UploadRoutes.ErrorBody "File path is required" |},
           fs))
  /\ (filePath <> EmptyString -> fs !! filePath = None ->
      UploadRoutes.app fs (Some filePath) events
      = Some (Some {| UploadRoutes.status := 400;
                      UploadRoutes.json :=
                        UploadRoutes.ErrorBody "File does not exist" |},
              fs))
  /\ (filePath <> EmptyString -> fs !! filePath = Some [] ->
      UploadRoutes.app fs (Some filePath) events
      = Some (Some {| UploadRoutes.status := 400;
                      UploadRoutes.json :=
                        UploadRoutes.ErrorBody "File is empty" |},
              delete filePath fs)
      /\ delete filePath fs !! filePath = None
      /\ forall other, other <> filePath ->
           delete filePath fs !! other = fs !! other).
Proof.
  unfold UploadRoutes.app, UploadRoutes.handler,
    StreamingMp3Parser.constructor.
  split; [|split].
  - intros ->. reflexivity.
  - intros Hpath Hnone. rewrite (proj2 (String.eqb_neq _ _) Hpath), Hnone.
    simpl. unfold UploadRoutes.cleanUp.
    rewrite (proj2 (String.eqb_neq _ _) Hpath), Hnone. reflexivity.
  - intros Hpath Hfile. rewrite (proj2 (String.eqb_neq _ _) Hpath), Hfile.
    simpl. rewrite cleanUp_delete by exact Hpath.
    split; [reflexivity|]. split; [apply lookup_delete_eq|].
    intros other Hother. apply lookup_delete_ne. congruence.
Qed.

(** X13.  The frame size at any cursor of any buffer, in both classes: it is
    0 or lies between 96 and 1441; it is 0 when fewer than 4 bytes are left
    at the cursor; and it depends on the four bytes at the cursor alone, so
    that the same four bytes give the same size in any buffer at any cursor.
    Both bounds are met, by a 32 kbit/s header at 48000 Hz and by a padded
    320 kbit/s header at 32000 Hz. *)
Theorem X13_frame_size_at_any_cursor (buffer : list byte) (offset : Z) :
  0 <= offset ->
  let size := StreamingMp3Parser.getFrameSize buffer offset in
  Mp3Parser.getFrameSize buffer offset = size
  /\ (size = 0 \/ 96 <= size <= 1441)
  /\ (Buffer.length buffer < offset + 4 -> size = 0)
  /\ (forall (buffer' : list byte) (offset' : Z),
        0 <= offset' ->
        take 4 (drop (Z.to_nat offset') buffer')
        = take 4 (drop (Z.to_nat offset) buffer) ->
        StreamingMp3Parser.getFrameSize buffer' offset' = size)
  /\ StreamingMp3Parser.getFrameSize header_32_48000 0 = 96
  /\ StreamingMp3Parser.getFrameSize header_320_32000_padded 0 = 1441.
Proof.
  intros Hoff size. subst size.
  split; [apply Mp3Parser_getFrameSize|].
  split; [apply getFrameSize_bounds|].
  split.
  { intros Hshort. unfold StreamingMp3Parser.getFrameSize,
      MP3_CONSTANTS.MIN_HEADER_SIZE.
    destruct (Z.gtb_spec (offset + 4) (Buffer.length buffer)); [reflexivity | lia]. }
  split; [|split; vm_compute; reflexivity].
  intros buffer' offset' Hoff' Hsame.
  assert (Hdrop : forall (b : list byte) (o : Z), 0 <= o ->
            StreamingMp3Parser.getFrameSize b o
            = StreamingMp3Parser.getFrameSize (drop (Z.to_nat o) b) 0).
  { intros b o Ho. destruct (Z_le_gt_dec o (Buffer.length b)) as [Hin | Hout].
    - rewrite getFrameSize_drop by lia. f_equal. lia.
    - rewrite drop_ge by (unfold Buffer.length in Hout; lia).
      unfold StreamingMp3Parser.getFrameSize, MP3_CONSTANTS.MIN_HEADER_SIZE.
      destruct (Z.gtb_spec (o + 4) (Buffer.length b)); [reflexivity | lia]. }
  rewrite (Hdrop buffer offset Hoff), (Hdrop buffer' offset' Hoff').
  assert (Htake : forall b : list byte,
            StreamingMp3Parser.getFrameSize b 0
            = StreamingMp3Parser.getFrameSize (take 4 b) 0).
  { intros b. destruct (Z_lt_le_dec (Buffer.length b) 4) as [Hlt | Hge].
    - rewrite firstn_all2; [reflexivity|]. unfold Buffer.length in Hlt. lia.
    - rewrite <- (take_drop 4 b) at 1. apply getFrameSize_app_l.
      unfold Buffer.length in *. rewrite length_take. lia. }
  rewrite (Htake (drop _ buffer)), (Htake (drop _ buffer')), Hsame.
  reflexivity.
Qed.

(** X13 at the second frame of two. *)
Lemma X13_frame_size_at_any_cursor_witness :
  StreamingMp3Parser.getFrameSize (frames 2) 417 = 0
  \/ 96 <= StreamingMp3Parser.getFrameSize (frames 2) 417 <= 1441.
Proof.
  refine (proj1 (proj2 (X13_frame_size_at_any_cursor (frames 2) 417 _))).
  lia.
Defined.
